(** * ASR notebook pipeline: book aggregation, SSML conversion, podcast synthesis

    A shallow embedding of the four scripts of the repository
    ([export/build_book.py], [scripts/convert-to-ssml.py],
    [scripts/generate-podcast.py], [scripts/generate-podcast-kokoro.py])
    and the properties of their pipeline logic.

    Python [str] values are modelled as lists of characters.  The character
    type is [ascii]; the classification functions below ([is_space],
    [upper], [lower]) are Python's on the ASCII range, which is the range the
    model is faithful on. *)

From Stdlib Require Import List Ascii String Bool Arith Lia.
From Stdlib Require Import Sorting.Permutation Sorting.Sorted.
From Stdlib Require DecimalString.
Import ListNotations.

Set Implicit Arguments.

(** ** Text *)

Definition str := list ascii.

(** A literal of the source, as a list of characters. *)
Definition lit (s : string) : str := list_ascii_of_string s.

Definition nl : ascii := ascii_of_nat 10.

Definition eqc (a b : ascii) : bool := Ascii.eqb a b.

(** [str.isspace] on one ASCII character: TAB, LF, VT, FF, CR, the four
    separators FS GS RS US, and the space.  The same set is what [\s] matches
    in a [str] pattern and what [split()] and [strip()] treat as blank. *)
Definition is_space (c : ascii) : bool :=
  let n := nat_of_ascii c in
  ((9 <=? n) && (n <=? 13)) || ((28 <=? n) && (n <=? 32)).

Definition is_lower (c : ascii) : bool :=
  let n := nat_of_ascii c in (97 <=? n) && (n <=? 122).

Definition is_upper (c : ascii) : bool :=
  let n := nat_of_ascii c in (65 <=? n) && (n <=? 90).

Definition upper (c : ascii) : ascii :=
  if is_lower c then ascii_of_nat (nat_of_ascii c - 32) else c.

Definition lower (c : ascii) : ascii :=
  if is_upper c then ascii_of_nat (nat_of_ascii c + 32) else c.

(** [s.startswith(p)], also giving what follows the prefix. *)
Fixpoint strip_prefix (p s : str) : option str :=
  match p, s with
  | [], _ => Some s
  | a :: p', b :: s' => if eqc a b then strip_prefix p' s' else None
  | _ :: _, [] => None
  end.

Definition starts_with (p s : str) : bool :=
  match strip_prefix p s with Some _ => true | None => false end.

(** [s.replace(old, new)] for a non-empty [old]: the occurrences are found
    left to right and do not overlap.  [skip] counts the characters of the
    occurrence just replaced that are still to be passed over. *)
Fixpoint replace_from (old new : str) (skip : nat) (s : str) : str :=
  match s with
  | [] => []
  | c :: s' =>
      match skip with
      | S k => replace_from old new k s'
      | O =>
          if starts_with old s
          then new ++ replace_from old new (List.length old - 1) s'
          else c :: replace_from old new 0 s'
      end
  end.

Definition replace (old new s : str) : str := replace_from old new 0 s.

(** [s.lstrip()], [s.rstrip()], [s.strip()]. *)
Fixpoint lstrip (s : str) : str :=
  match s with
  | c :: s' => if is_space c then lstrip s' else s
  | [] => []
  end.

Definition rstrip (s : str) : str := rev (lstrip (rev s)).

Definition strip (s : str) : str := rstrip (lstrip s).

(** [s.split()]: the maximal runs of non-blank characters, in order.  [cur]
    is the run being read, reversed. *)
Fixpoint split_from (cur : str) (s : str) : list str :=
  match s with
  | [] => match cur with [] => [] | _ => [rev cur] end
  | c :: s' =>
      if is_space c
      then match cur with
           | [] => split_from [] s'
           | _ => rev cur :: split_from [] s'
           end
      else split_from (c :: cur) s'
  end.

Definition split (s : str) : list str := split_from [] s.

(** [sep.join(xs)]. *)
Fixpoint join (sep : str) (xs : list str) : str :=
  match xs with
  | [] => []
  | [x] => x
  | x :: rest => x ++ sep ++ join sep rest
  end.

(** [s.capitalize()]: first character upper-cased, all the others
    lower-cased. *)
Definition capitalize (s : str) : str :=
  match s with
  | [] => []
  | c :: s' => upper c :: map lower s'
  end.

(** ** Regular expressions

    The fragment of Python's [re] the scripts use: a pattern is a sequence of
    items, each a one-character class under a quantifier, or one of the two
    line anchors of [re.MULTILINE].  Matching is the backtracking search of
    [re]: a greedy quantifier first takes as many characters as it can and
    gives them back one at a time. *)
Module Re.

Inductive cls : Type :=
| Chr (c : ascii)      (* the character itself *)
| NotChr (c : ascii)   (* [^c] *)
| Blank                (* \s *)
| AnyButNl.            (* .  *)

Inductive quant : Type := One | Opt | Star | Plus.

Inductive item : Type :=
| Atom (k : cls) (q : quant)
| Bol                  (* ^ under MULTILINE *)
| Eol.                 (* $ under MULTILINE *)

Definition pattern := list item.

Definition test (k : cls) (c : ascii) : bool :=
  match k with
  | Chr a => eqc a c
  | NotChr a => negb (eqc a c)
  | Blank => is_space c
  | AnyButNl => negb (eqc nl c)
  end.

(** [^]: at the start of the text or just after a newline. *)
Definition at_bol (prev : option ascii) : bool :=
  match prev with None => true | Some c => eqc nl c end.

(** [$]: at the end of the text or just before a newline. *)
Definition at_eol (s : str) : bool :=
  match s with [] => true | c :: _ => eqc nl c end.

(** The literal characters of [s], each exactly once. *)
Definition chars (s : string) : pattern :=
  map (fun c => Atom (Chr c) One) (lit s).

(** Greedy repetition of a class, then the rest of the pattern [k].  The
    result is the number of characters matched. *)
Fixpoint greedy (t : ascii -> bool)
    (k : option ascii -> str -> option nat)
    (prev : option ascii) (s : str) : option nat :=
  match s with
  | c :: s' =>
      if t c
      then match greedy t k (Some c) s' with
           | Some n => Some (S n)
           | None => k prev s
           end
      else k prev s
  | [] => k prev []
  end.

(** A match of [pat] starting at the head of [s], where [prev] is the
    character before it; the length of the match. *)
Fixpoint match_here (pat : pattern) (prev : option ascii) (s : str)
    {struct pat} : option nat :=
  match pat with
  | [] => Some 0
  | Bol :: p => if at_bol prev then match_here p prev s else None
  | Eol :: p => if at_eol s then match_here p prev s else None
  | Atom k One :: p =>
      match s with
      | c :: s' =>
          if test k c then option_map S (match_here p (Some c) s') else None
      | [] => None
      end
  | Atom k Opt :: p =>
      match s with
      | c :: s' =>
          if test k c
          then match match_here p (Some c) s' with
               | Some n => Some (S n)
               | None => match_here p prev s
               end
          else match_here p prev s
      | [] => match_here p prev s
      end
  | Atom k Star :: p => greedy (test k) (match_here p) prev s
  | Atom k Plus :: p =>
      match s with
      | c :: s' =>
          if test k c
          then option_map S (greedy (test k) (match_here p) (Some c) s')
          else None
      | [] => None
      end
  end.

(** [re.sub(pat, repl, s)] for a pattern that cannot match the empty
    string, which is the case of every pattern of the scripts.  The text is
    scanned left to right; a match is replaced and the scan resumes after
    it.  [skip] counts the characters of the last match still to be passed
    over. *)
Fixpoint sub_from (pat : pattern) (repl : str) (skip : nat)
    (prev : option ascii) (s : str) : str :=
  match s with
  | [] => []
  | c :: s' =>
      match skip with
      | S k => sub_from pat repl k (Some c) s'
      | O =>
          match match_here pat prev s with
          | Some (S n) => repl ++ sub_from pat repl n (Some c) s'
          | _ => c :: sub_from pat repl 0 (Some c) s'
          end
      end
  end.

Definition sub (pat : pattern) (repl : str) (s : str) : str :=
  sub_from pat repl 0 None s.

End Re.

(** ** Paths, ordering and [sorted] *)

(** A [pathlib.Path] relative to the directory a script works in: its
    components, outermost first. *)
Definition path := list str.

Definition slash : str := lit "/".

(** [str(p)]. *)
Definition path_str (p : path) : str := join slash p.

(** [p.name] and [p.parent]. *)
Definition name (p : path) : str := last p [].
Definition parent (p : path) : path := removelast p.

(** [s.rfind('.')]: the index of the last dot, scanning with [i] the index
    of the head and [found] the last one seen. *)
Fixpoint rfind_dot (i : nat) (found : option nat) (s : str) : option nat :=
  match s with
  | [] => found
  | c :: s' => rfind_dot (S i) (if eqc "." c then Some i else found) s'
  end.

(** [p.stem]: the name up to its last dot, when that dot is neither the first
    nor the last character. *)
Definition stem (p : path) : str :=
  let n := name p in
  match rfind_dot 0 None n with
  | Some i => if (0 <? i) && (i <? List.length n - 1) then firstn i n else n
  | None => n
  end.

(** Order of [str]: by code point, character by character. *)
Definition char_ltb (a b : ascii) : bool := nat_of_ascii a <? nat_of_ascii b.

Fixpoint str_eqb (x y : str) : bool :=
  match x, y with
  | [], [] => true
  | a :: x', b :: y' => eqc a b && str_eqb x' y'
  | _, _ => false
  end.

Fixpoint str_leb (x y : str) : bool :=
  match x, y with
  | [], _ => true
  | _ :: _, [] => false
  | a :: x', b :: y' =>
      if char_ltb a b then true else if eqc a b then str_leb x' y' else false
  end.

Definition str_ltb (x y : str) : bool := str_leb x y && negb (str_eqb x y).

(** Order of paths: component by component, as [pathlib] compares the
    lists of parts. *)
Fixpoint path_leb (p q : path) : bool :=
  match p, q with
  | [], _ => true
  | _ :: _, [] => false
  | a :: p', b :: q' =>
      if str_ltb a b then true else if str_eqb a b then path_leb p' q' else false
  end.

(** [sorted(xs)] for the order [leb]: a stable insertion sort. *)
Section Sorted.
Variable A : Type.
Variable leb : A -> A -> bool.

Fixpoint insert (x : A) (l : list A) : list A :=
  match l with
  | [] => [x]
  | y :: l' => if leb x y then x :: l else y :: insert x l'
  end.

Fixpoint sorted (l : list A) : list A :=
  match l with
  | [] => []
  | x :: l' => insert x (sorted l')
  end.
End Sorted.

(** ** What the outside world answers *)

(** Reading a text file: its content, or the message of the exception. *)
Inductive read_result : Type :=
| ReadOk (content : str)
| ReadErr (message : str).

(** How a script function ends: it returns, it leaves through
    [sys.exit(code)], or an exception nobody catches ends the run. *)
Inductive outcome (A : Type) : Type :=
| Done (a : A)
| SysExit (code : nat)
| Uncaught.
Arguments Done {A} a.
Arguments SysExit {A} code.
Arguments Uncaught {A}.

(** ** scripts/convert-to-ssml.py *)
Module Convert.

(** What [convert_to_ssml] meets at the OpenRouter endpoint. *)
Inductive reply : Type :=
| Content (ssml : str)   (* choices[0].message.content of a 2xx answer *)
| RequestFailed          (* a requests.exceptions.RequestException: network,
                            timeout, raise_for_status, undecodable body *)
| Unexpected.            (* any other exception, e.g. the KeyError of an
                            answer without "choices" *)

Record world : Type := {
  md_found : list path;             (* NOTEBOOK_DIR.rglob("*.md"), relative *)
  read_markdown : path -> read_result;
  openrouter : str -> reply;        (* on the content of the item *)
  write_error : path -> str -> option str;  (* message when the write fails *)
  now : str
}.

(** One element of [manifest["files"]]. *)
Record entry : Type := {
  source : str;
  output : option str;
  status : str;
  error : option str
}.

Record manifest : Type := {
  generated_at : str;
  total_files : nat;
  files : list entry
}.

(** [convert_to_ssml]: the text, [None] after a request exception; other
    exceptions are not caught. *)
Definition convert_to_ssml (w : world) (content : str)
  : outcome (option str) :=
  match openrouter w content with
  | Content ssml => Done (Some ssml)
  | RequestFailed => Done None
  | Unexpected => Uncaught
  end.

(** [ssml_file], relative to OUTPUT_DIR. *)
Definition ssml_file_of (rel_path : path) : path :=
  parent rel_path ++ [stem rel_path ++ lit ".ssml"].

(** The body of the loop of [process_notebook] for one file: the entries
    to append, or the exception that ends the run. *)
Definition process_one (w : world) (rel_path : path)
  : outcome (list entry) :=
  let ssml_file := ssml_file_of rel_path in
  match read_markdown w rel_path with
  | ReadErr _ => Done []                                  (* continue *)
  | ReadOk content =>
      match convert_to_ssml w content with
      | Done (Some ((_ :: _) as ssml_content)) =>
          match write_error w ssml_file ssml_content with
          | None =>
              Done [{| source := path_str rel_path;
                       output := Some (path_str ssml_file);
                       status := lit "success";
                       error := None |}]
          | Some e =>
              Done [{| source := path_str rel_path;
                       output := Some (path_str ssml_file);
                       status := lit "error";
                       error := Some e |}]
          end
      | Done _ =>                            (* None or the empty text *)
          Done [{| source := path_str rel_path;
                   output := None;
                   status := lit "conversion_failed";
                   error := None |}]
      | SysExit c => SysExit c
      | Uncaught => Uncaught
      end
  end.

(** The loop over [md_files], with the entries appended so far. *)
Fixpoint process_files (w : world) (acc : list entry) (md_files : list path)
  : outcome (list entry) :=
  match md_files with
  | [] => Done acc
  | md_file :: rest =>
      match process_one w md_file with
      | Done es => process_files w (acc ++ es) rest
      | SysExit c => SysExit c
      | Uncaught => Uncaught
      end
  end.

(** [process_notebook].  The output directories are taken to exist or to
    be creatable and manifest.json to be writable: the two [mkdir] calls
    and the write of the manifest stand outside every [try], so a run in
    which one of them raises ends in that exception and leaves no
    manifest. *)
Definition process_notebook (w : world) : outcome manifest :=
  let md_files := sorted path_leb (md_found w) in
  match process_files w [] md_files with
  | Done es =>
      Done {| generated_at := now w;
              total_files := List.length md_files;
              files := es |}
  | SysExit c => SysExit c
  | Uncaught => Uncaught
  end.

End Convert.

(** ** What the two synthesis scripts share *)
Module Podcast.

(** podcast-ssml/manifest.json as the synthesis scripts find it. *)
Inductive manifest_file : Type :=
| Absent
| Malformed                       (* json.load raises *)
| Loaded (m : Convert.manifest).

(** Running an external program. *)
Inductive run_result : Type :=
| Exited (returncode : nat)
| TimedOut                        (* subprocess.TimeoutExpired *)
| RunRaised.                      (* any other exception *)

(** Answer of an HTTP endpoint. *)
Inductive http_result : Type :=
| Response (status_code : nat) (content : list Byte.byte)
| RequestRaised.

(** What a script does to the outside world, in order; an action is
    listed when it is attempted. *)
Inductive event : Type :=
| HttpPost (inputs : str)                       (* json={"inputs": text} *)
| WriteAudio (file : path) (data : list Byte.byte)
| RunEdgeTts (voice text : str) (write_media : path)
| RunFfmpeg (inputs : list path) (output_file : path).

(** One element of [podcast_manifest["files"]]. *)
Record entry : Type := {
  ssml_source : str;
  audio_output : option str;
  status : str
}.

(** [podcast_manifest["full_podcast"]], without its size. *)
Record full_podcast : Type := {
  file : str;
  track_count : nat
}.

(** [engine] is the "tts_engine" of the Kokoro script and the "voice" of
    the edge-tts one. *)
Record manifest : Type := {
  generated_at : str;
  engine : str;
  total_files : nat;
  files : list entry;
  full : option full_podcast
}.

(** The audio file of an SSML file, relative to OUTPUT_DIR. *)
Definition audio_file_of (ext : string) (rel_path : path) : path :=
  parent rel_path ++ [stem rel_path ++ lit ext].

Definition success_entry (rel_path audio_file : path) : entry :=
  {| ssml_source := path_str rel_path;
     audio_output := Some (path_str audio_file);
     status := lit "success" |}.

Definition failed_entry (rel_path : path) : entry :=
  {| ssml_source := path_str rel_path;
     audio_output := None;
     status := lit "failed" |}.

(** The state of the loop of [process_ssml_directory]. *)
Record loop_state : Type := {
  audio_files : list path;
  entries : list entry;
  trace : list event
}.

(** [concatenate_audio_files]: its result and what it did.  concat_list.txt
    is written first, inside the [try]: when that fails ([list_written] is
    false) the function returns [False] and ffmpeg is not started;
    otherwise ffmpeg is run and answers [r]. *)
Definition concatenate_audio_files (list_written : bool) (r : run_result)
    (audio_files : list path) (output_file : path) : bool * list event :=
  if list_written
  then (match r with
        | Exited 0 => true
        | _ => false
        end,
        [RunFfmpeg audio_files output_file])
  else (false, []).

End Podcast.

(** ** scripts/generate-podcast-kokoro.py *)
Module Kokoro.

Import Re.

Definition gt : ascii := ascii_of_nat 62.

(** The patterns of [strip_ssml_tags], in the order they are applied. *)
Definition xml_decl : pattern :=               (* <\?xml[^>]*\?> *)
  chars "<?xml" ++ [Atom (NotChr gt) Star] ++ chars "?>".
Definition open_tag (name : string) : pattern := (* <name[^>]*> *)
  chars "<" ++ chars name ++ [Atom (NotChr gt) Star] ++ chars ">".
Definition close_tag (name : string) : pattern := (* </name> *)
  chars "</" ++ chars name ++ chars ">".
Definition break_tag : pattern :=              (* <break[^>]*/?> *)
  chars "<break" ++ [Atom (NotChr gt) Star; Atom (Chr "/") Opt]
    ++ chars ">".
Definition blanks : pattern := [Atom Blank Plus]. (* \s+ *)

Definition strip_ssml_tags (ssml_content : str) : str :=
  let text := sub xml_decl [] ssml_content in
  let text := sub (open_tag "speak") [] text in
  let text := sub (close_tag "speak") [] text in
  let text := sub break_tag (lit " ") text in
  let text := sub (open_tag "prosody") [] text in
  let text := sub (close_tag "prosody") [] text in
  let text := sub (open_tag "emphasis") [] text in
  let text := sub (close_tag "emphasis") [] text in
  let text := sub (open_tag "say-as") [] text in
  let text := sub (close_tag "say-as") [] text in
  let text := sub (chars "<p>") [nl; nl] text in
  let text := sub (chars "</p>") [nl; nl] text in
  let text := sub blanks (lit " ") text in
  strip text.

Import Podcast.

Record world : Type := {
  manifest_json : manifest_file;
  ssml_found : list path;          (* SSML_DIR.rglob("*.ssml"), relative *)
  read_ssml : path -> read_result;
  hf_inference : str -> http_result;   (* on the "inputs" text *)
  write_ok : path -> bool;
  write_list : list path -> bool;   (* writing concat_list.txt *)
  ffmpeg : list path -> path -> run_result;
  now : str;
  today : str
}.

(** [convert_ssml_to_audio_kokoro]: its result and what it did. *)
Definition convert_ssml_to_audio_kokoro (w : world)
    (ssml_file output_file : path) : bool * list event :=
  match read_ssml w ssml_file with
  | ReadErr _ => (false, [])
  | ReadOk ssml_content =>
      match strip_ssml_tags ssml_content with
      | [] => (false, [])                       (* if not text *)
      | (_ :: _) as text =>
          match hf_inference w text with
          | Response status_code content =>
              if status_code =? 200
              then (write_ok w output_file,
                    [HttpPost text; WriteAudio output_file content])
              else (false, [HttpPost text])
          | RequestRaised => (false, [HttpPost text])
          end
      end
  end.

(** One turn of the loop of [process_ssml_directory]. *)
Definition process_one (w : world) (st : loop_state) (rel_path : path)
  : loop_state :=
  let audio_file := audio_file_of ".wav" rel_path in
  let '(success, evs) := convert_ssml_to_audio_kokoro w rel_path audio_file in
  if success
  then {| audio_files := audio_files st ++ [audio_file];
          entries := entries st ++ [success_entry rel_path audio_file];
          trace := trace st ++ evs |}
  else {| audio_files := audio_files st;
          entries := entries st ++ [failed_entry rel_path];
          trace := trace st ++ evs |}.

(** [process_ssml_directory].  As in the conversion stage, the [mkdir]
    calls, the writes of the two manifests, the [stat] of the combined file
    and the removal of concat_list.txt stand outside every [try] and are
    taken to succeed: a run in which one of them raises ends in that
    exception. *)
Definition process_ssml_directory (w : world) (concatenate : bool)
  : outcome (manifest * list event) :=
  match manifest_json w with
  | Absent => SysExit 1
  | Malformed => Uncaught
  | Loaded _ =>
      match sorted path_leb (ssml_found w) with
      | [] => SysExit 1
      | (_ :: _) as ssml_files =>
          let st := fold_left (process_one w) ssml_files
                      {| audio_files := []; entries := []; trace := [] |} in
          let podcast_manifest :=
            {| generated_at := now w;
               engine := lit "kokoro-82m";
               total_files := List.length ssml_files;
               files := entries st;
               full := None |} in
          match concatenate, audio_files st with
          | true, _ :: _ =>
              let full_podcast_file :=
                [lit "stt-finetune-podcast-" ++ today w ++ lit ".wav"] in
              let '(ok, cevs) :=
                concatenate_audio_files (write_list w (audio_files st))
                  (ffmpeg w (audio_files st) full_podcast_file)
                  (audio_files st) full_podcast_file in
              let evs := trace st ++ cevs in
              if ok
              then Done ({| generated_at := now w;
                            engine := lit "kokoro-82m";
                            total_files := List.length ssml_files;
                            files := entries st;
                            full := Some
                              {| file := path_str full_podcast_file;
                                 track_count :=
                                   List.length (audio_files st) |} |},
                         evs)
              else Done (podcast_manifest, evs)
          | _, _ => Done (podcast_manifest, trace st)
          end
      end
  end.

End Kokoro.

(** ** scripts/generate-podcast.py *)
Module EdgeTts.

Import Podcast.

Record world : Type := {
  manifest_json : manifest_file;
  ssml_found : list path;          (* SSML_DIR.rglob("*.ssml"), relative *)
  read_ssml : path -> read_result;
  edge_tts : str -> str -> path -> run_result;  (* voice, text, output *)
  write_list : list path -> bool;   (* writing concat_list.txt *)
  ffmpeg : list path -> path -> run_result;
  now : str;
  today : str
}.

Definition DEFAULT_VOICE : str := lit "en-US-AriaNeural".

(** [convert_ssml_to_audio]: its result and what it did. *)
Definition convert_ssml_to_audio (w : world)
    (ssml_file output_file : path) (voice : str) : bool * list event :=
  match read_ssml w ssml_file with
  | ReadErr _ => (false, [])
  | ReadOk ssml_content =>
      let ev := [RunEdgeTts voice ssml_content output_file] in
      match edge_tts w voice ssml_content output_file with
      | Exited 0 => (true, ev)
      | Exited _ => (false, ev)
      | TimedOut => (false, ev)
      | RunRaised => (false, ev)
      end
  end.

Definition process_one (w : world) (voice : str) (st : loop_state)
    (rel_path : path) : loop_state :=
  let audio_file := audio_file_of ".mp3" rel_path in
  let '(success, evs) := convert_ssml_to_audio w rel_path audio_file voice in
  if success
  then {| audio_files := audio_files st ++ [audio_file];
          entries := entries st ++ [success_entry rel_path audio_file];
          trace := trace st ++ evs |}
  else {| audio_files := audio_files st;
          entries := entries st ++ [failed_entry rel_path];
          trace := trace st ++ evs |}.

(** [process_ssml_directory], under the same reading of [mkdir], the
    manifest writes, [stat] and the removal of concat_list.txt as in the
    Kokoro script. *)
Definition process_ssml_directory (w : world) (voice : str)
    (concatenate : bool) : outcome (manifest * list event) :=
  match manifest_json w with
  | Absent => SysExit 1
  | Malformed => Uncaught
  | Loaded _ =>
      match sorted path_leb (ssml_found w) with
      | [] => SysExit 1
      | (_ :: _) as ssml_files =>
          let st := fold_left (process_one w voice) ssml_files
                      {| audio_files := []; entries := []; trace := [] |} in
          let podcast_manifest :=
            {| generated_at := now w;
               engine := voice;
               total_files := List.length ssml_files;
               files := entries st;
               full := None |} in
          match concatenate, audio_files st with
          | true, _ :: _ =>
              let full_podcast_file :=
                [lit "stt-finetune-podcast-" ++ today w ++ lit ".mp3"] in
              let '(ok, cevs) :=
                concatenate_audio_files (write_list w (audio_files st))
                  (ffmpeg w (audio_files st) full_podcast_file)
                  (audio_files st) full_podcast_file in
              let evs := trace st ++ cevs in
              if ok
              then Done ({| generated_at := now w;
                            engine := voice;
                            total_files := List.length ssml_files;
                            files := entries st;
                            full := Some
                              {| file := path_str full_podcast_file;
                                 track_count :=
                                   List.length (audio_files st) |} |},
                         evs)
              else Done (podcast_manifest, evs)
          | _, _ => Done (podcast_manifest, trace st)
          end
      end
  end.

End EdgeTts.


(** ** export/build_book.py *)
Module BuildBook.

Record topic : Type := {
  key : str;
  title : str;
  description : str
}.

Definition mk (k t d : string) : topic :=
  {| key := lit k; title := lit t; description := lit d |}.

(** The dict [TOPIC_ORDER], in its insertion order. *)
Definition TOPIC_ORDER : list topic := [
  mk "background-context" "Part I: Background & Context"
     "Historical context and evolution of ASR technology";
  mk "models" "Part II: ASR Models"
     "Overview and comparison of ASR models";
  mk "data-preparation" "Part III: Data Preparation"
     "Audio data preparation and dataset creation";
  mk "fine-tuning" "Part IV: Fine-Tuning"
     "Fine-tuning strategies and techniques";
  mk "inference" "Part V: Inference & Deployment"
     "Running and deploying ASR models";
  mk "amd" "Part VI: AMD GPU Optimization"
     "AMD-specific hardware considerations";
  mk "mobile-asr" "Part VII: Mobile ASR"
     "Mobile and edge device deployment";
  mk "formats" "Part VIII: File Formats"
     "Audio and model file formats";
  mk "vocab" "Part IX: Vocabulary & Language"
     "Vocabulary recognition and language considerations";
  mk "pitfalls" "Part X: Common Pitfalls"
     "Common issues and how to avoid them";
  mk "q-and-a" "Part XI: Q&A"
     "Frequently asked questions";
  mk "notes" "Part XII: Additional Notes"
     "Supplementary topics and observations"
].

(** [name in TOPIC_ORDER]. *)
Definition is_topic (n : str) : bool :=
  existsb (fun t => str_eqb (key t) n) TOPIC_ORDER.

(** [clean_title]. *)
Definition clean_title (filename : str) : str :=
  let title := replace (lit "-") (lit " ") (replace (lit ".md") [] filename) in
  join (lit " ") (map capitalize (split title)).

(** A [Dict[str, List[Path]]], in insertion order. *)
Definition dict := list (str * list path).

Fixpoint dict_get (d : dict) (k : str) : option (list path) :=
  match d with
  | [] => None
  | (k', v) :: d' => if str_eqb k' k then Some v else dict_get d' k
  end.

(** [d[k] = v]. *)
Fixpoint dict_set (d : dict) (k : str) (v : list path) : dict :=
  match d with
  | [] => [(k, v)]
  | (k', v') :: d' =>
      if str_eqb k' k then (k', v) :: d' else (k', v') :: dict_set d' k v
  end.

(** An entry of the notebook directory and the names directly inside it. *)
Record dir_entry : Type := {
  entry_name : str;
  is_dir : bool;
  children : list str
}.

Record world : Type := {
  notebook : list dir_entry;           (* notebook_dir.iterdir() *)
  read_file : path -> read_result
}.

Definition notebook_dir : path := [lit ".."; lit "notebook"].

Definition ends_with (suffix s : str) : bool :=
  starts_with (rev suffix) (rev s).

(** [topic_dir.glob('*.md')]. *)
Definition glob_md (d : dir_entry) : list path :=
  map (fun n => notebook_dir ++ [entry_name d; n])
      (filter (ends_with (lit ".md")) (children d)).

(** [collect_files]. *)
Definition collect_files (w : world) : dict :=
  fold_left
    (fun organized topic_dir =>
       if is_dir topic_dir && is_topic (entry_name topic_dir)
       then dict_set organized (entry_name topic_dir)
              (sorted path_leb (glob_md topic_dir))
       else organized)
    (notebook w)
    (map (fun t => (key t, [])) TOPIC_ORDER).

(** [organized_files.get(topic_key)] as a condition: present and not
    empty. *)
Definition truthy (organized_files : dict) (topic_key : str) : bool :=
  match dict_get organized_files topic_key with
  | Some (_ :: _) => true
  | _ => false
  end.

(** [organized_files[topic_key]] once [truthy] holds. *)
Definition files_of (organized_files : dict) (topic_key : str) : list path :=
  match dict_get organized_files topic_key with
  | Some v => v
  | None => []
  end.

(** [f"{n}"]. *)
Definition decimal (n : nat) : str :=
  lit (DecimalString.NilEmpty.string_of_uint (Nat.to_uint n)).

(** The list [toc] of [generate_toc], before it is joined. *)
Definition toc_lines (organized_files : dict) : list str :=
  let toc :=
    [lit "# Speech-to-Text Fine-Tuning Guide"; [];
     lit "_A Comprehensive Guide to ASR Model Fine-Tuning and Deployment_";
     []; lit "---"; []; lit "## Table of Contents"; []] in
  let toc :=
    fold_left
      (fun toc topic_info =>
         if truthy organized_files (key topic_info)
         then
           let chapter_count :=
             List.length (files_of organized_files (key topic_info)) in
           toc ++ [lit "**" ++ title topic_info ++ lit "**  "]
               ++ [description topic_info ++ lit " ("
                     ++ decimal chapter_count ++ lit " chapters)"]
               ++ [[]]
         else toc)
      TOPIC_ORDER toc in
  toc ++ [lit "---"] ++ [[]].

Definition generate_toc (organized_files : dict) : str :=
  join [nl] (toc_lines organized_files).

(** [read_file_content]. *)
Definition read_file_content (w : world) (file_path : path) : str :=
  match read_file w file_path with
  | ReadOk content => strip content
  | ReadErr e =>
      lit "<!-- Error reading " ++ path_str file_path ++ lit ": " ++ e
        ++ lit " -->"
  end.

(** [^#\s+.*$] *)
Definition top_header : Re.pattern :=
  [Re.Bol; Re.Atom (Re.Chr "#") Re.One; Re.Atom Re.Blank Re.Plus;
   Re.Atom Re.AnyButNl Re.Star; Re.Eol].

(** The four lines appended for one chapter, after [parts]. *)
Definition add_chapter (w : world) (parts : list str) (file_path : path)
  : list str :=
  let chapter_title := clean_title (name file_path) in
  let parts := parts ++ [[]] in
  let parts := parts ++ [lit "## " ++ chapter_title] in
  let parts := parts ++ [[]] in
  let content := read_file_content w file_path in
  let content := Re.sub top_header [] content in
  let parts := parts ++ [content] in
  parts ++ [[]].

(** One turn of the loop over the topics. *)
Definition add_topic (w : world) (organized_files : dict)
    (parts : list str) (topic_info : topic) : list str :=
  if negb (truthy organized_files (key topic_info))
  then parts                                              (* continue *)
  else
    let parts := parts ++ [[]] in
    let parts := parts ++ [lit "# " ++ title topic_info] in
    let parts := parts ++ [[]] in
    let parts := parts ++ [lit "_" ++ description topic_info ++ lit "_"] in
    let parts := parts ++ [[]] in
    let parts := parts ++ [lit "---"] in
    let parts := parts ++ [[]] in
    fold_left (add_chapter w) (files_of organized_files (key topic_info))
      parts.

(** The list [parts] of [build_master_document], before it is joined. *)
Definition master_parts (w : world) (organized_files : dict) : list str :=
  fold_left (add_topic w organized_files) TOPIC_ORDER
    [generate_toc organized_files].

Definition build_master_document (w : world) (organized_files : dict)
  : str :=
  join [nl] (master_parts w organized_files).

End BuildBook.

(** * Observations and reference definitions *)

(** The entries a run of the conversion stage leaves in its manifest. *)
Definition conversion_entries (o : outcome Convert.manifest)
  : list Convert.entry :=
  match o with
  | Done m => Convert.files m
  | _ => []
  end.

(** The entries a run of a synthesis stage leaves in its manifest. *)
Definition podcast_entries (o : outcome (Podcast.manifest * list Podcast.event))
  : list Podcast.entry :=
  match o with
  | Done (m, _) => Podcast.files m
  | _ => []
  end.

(** The texts handed to a TTS backend, in order. *)
Fixpoint backend_texts (evs : list Podcast.event) : list str :=
  match evs with
  | [] => []
  | Podcast.HttpPost inputs :: r => inputs :: backend_texts r
  | Podcast.RunEdgeTts _ text _ :: r => text :: backend_texts r
  | _ :: r => backend_texts r
  end.

(** The SSML files a conversion manifest records as converted. *)
Definition recorded_successes (m : Convert.manifest) : list str :=
  flat_map
    (fun e =>
       if str_eqb (Convert.status e) (lit "success")
       then match Convert.output e with Some o => [o] | None => [] end
       else [])
    (Convert.files m).

(** [c in s]. *)
Definition has_char (c : ascii) (s : str) : bool := existsb (eqc c) s.

(** [old in s], for a non-empty [old]. *)
Fixpoint contains (old s : str) : bool :=
  match s with
  | [] => false
  | _ :: s' => starts_with old s || contains old s'
  end.

(** Blank runs collapsed to one space each; [in_run] tells that the
    previous character was blank. *)
Fixpoint collapse (in_run : bool) (s : str) : str :=
  match s with
  | [] => []
  | c :: s' =>
      if is_space c
      then if in_run then collapse true s' else " "%char :: collapse true s'
      else c :: collapse false s'
  end.

(** Every blank is a space and no two blanks are adjacent; [prev_blank]
    tells that the character before [s] was blank. *)
Fixpoint normal_from (prev_blank : bool) (s : str) : Prop :=
  match s with
  | [] => True
  | c :: s' =>
      if is_space c
      then c = " "%char /\ prev_blank = false /\ normal_from true s'
      else normal_from false s'
  end.

(** The number of blanks [s] starts with. *)
Fixpoint run (s : str) : nat :=
  match s with
  | c :: s' => if is_space c then S (run s') else 0
  | [] => 0
  end.

(** Title derivation as the specification words it: remove the extension,
    replace each hyphen with a space, split on whitespace, capitalize the
    first letter of each token, rejoin with single spaces. *)
Module TitleSpec.

Definition remove_extension (filename : str) : str := stem [filename].

Definition hyphen_to_space (c : ascii) : ascii :=
  if eqc "-" c then " "%char else c.

Definition capitalize_first (token : str) : str :=
  match token with
  | [] => []
  | c :: rest => upper c :: rest
  end.

Definition derived_title (filename : str) : str :=
  join (lit " ")
    (map capitalize_first
       (split (map hyphen_to_space (remove_extension filename)))).

End TitleSpec.

(** The book, section by section. *)
Module BookSpec.

Import BuildBook.

(** The lines that open the part of a topic. *)
Definition topic_header (t : topic) : list str :=
  [[]; lit "# " ++ title t; []; lit "_" ++ description t ++ lit "_"; [];
   lit "---"; []].

(** The lines of one chapter, given its body. *)
Definition chapter_block (file_path : path) (body : str) : list str :=
  [[]; lit "## " ++ clean_title (name file_path); []; body; []].

Definition chapter (w : world) (file_path : path) : list str :=
  chapter_block file_path
    (Re.sub top_header [] (read_file_content w file_path)).

Definition section (w : world) (organized_files : dict) (t : topic)
  : list str :=
  topic_header t
    ++ flat_map (chapter w) (files_of organized_files (key t)).

(** The topics that are shown: those with at least one file. *)
Definition shown (organized_files : dict) : list topic :=
  filter (fun t => truthy organized_files (key t)) TOPIC_ORDER.

Definition toc_head : list str :=
  [lit "# Speech-to-Text Fine-Tuning Guide"; [];
   lit "_A Comprehensive Guide to ASR Model Fine-Tuning and Deployment_";
   []; lit "---"; []; lit "## Table of Contents"; []].

Definition toc_entry (organized_files : dict) (t : topic) : list str :=
  [lit "**" ++ title t ++ lit "**  ";
   description t ++ lit " ("
     ++ decimal (List.length (files_of organized_files (key t)))
     ++ lit " chapters)";
   []].

(** The markdown files of the directory named [k], sorted by file name;
    none when there is no such directory. *)
Definition md_names (d : dir_entry) : list str :=
  filter (ends_with (lit ".md")) (children d).

Definition topic_files (w : world) (k : str) : list path :=
  match
    find (fun d => is_dir d && str_eqb (entry_name d) k) (notebook w)
  with
  | Some d =>
      map (fun n => notebook_dir ++ [k; n]) (sorted str_leb (md_names d))
  | None => []
  end.

(** The placeholder of a file that could not be read. *)
Definition placeholder (file_path : path) (e : str) : str :=
  lit "<!-- Error reading " ++ path_str file_path ++ lit ": " ++ e
    ++ lit " -->".

End BookSpec.

(** The manifest entry each synthesis script writes for one SSML file. *)
Definition kokoro_entry (w : Kokoro.world) (rel_path : path)
  : Podcast.entry :=
  let audio_file := Podcast.audio_file_of ".wav" rel_path in
  if fst (Kokoro.convert_ssml_to_audio_kokoro w rel_path audio_file)
  then Podcast.success_entry rel_path audio_file
  else Podcast.failed_entry rel_path.

Definition edge_entry (w : EdgeTts.world) (voice : str) (rel_path : path)
  : Podcast.entry :=
  let audio_file := Podcast.audio_file_of ".mp3" rel_path in
  if fst (EdgeTts.convert_ssml_to_audio w rel_path audio_file voice)
  then Podcast.success_entry rel_path audio_file
  else Podcast.failed_entry rel_path.

(** The order a boolean comparison decides. *)
Definition holds (A : Type) (leb : A -> A -> bool) (x y : A) : Prop :=
  leb x y = true.

(** The status values each stage writes. *)
Definition conversion_statuses : list str :=
  [lit "success"; lit "error"; lit "conversion_failed"].

Definition synthesis_statuses : list str := [lit "success"; lit "failed"].

(** The status values of the specification's ManifestEntry. *)
Definition spec_statuses : list str :=
  [lit "success"; lit "failed"; lit "skipped"].

Definition count_status (s : string) (es : list Convert.entry) : nat :=
  List.length (filter (fun e => str_eqb (Convert.status e) (lit s)) es).

(** The item is read, and its request ends in an answer or in a request
    exception. *)
Definition handled (w : Convert.world) (p : path) : Prop :=
  exists content,
    Convert.read_markdown w p = ReadOk content
    /\ Convert.openrouter w content <> Convert.Unexpected.

(** The text once the twelve tag substitutions are done. *)
Definition untagged (ssml_content : str) : str :=
  let text := Re.sub Kokoro.xml_decl [] ssml_content in
  let text := Re.sub (Kokoro.open_tag "speak") [] text in
  let text := Re.sub (Kokoro.close_tag "speak") [] text in
  let text := Re.sub Kokoro.break_tag (lit " ") text in
  let text := Re.sub (Kokoro.open_tag "prosody") [] text in
  let text := Re.sub (Kokoro.close_tag "prosody") [] text in
  let text := Re.sub (Kokoro.open_tag "emphasis") [] text in
  let text := Re.sub (Kokoro.close_tag "emphasis") [] text in
  let text := Re.sub (Kokoro.open_tag "say-as") [] text in
  let text := Re.sub (Kokoro.close_tag "say-as") [] text in
  let text := Re.sub (Re.chars "<p>") [nl; nl] text in
  Re.sub (Re.chars "</p>") [nl; nl] text.

(** Every pattern the scripts hand to [re.sub]. *)
Definition script_patterns : list Re.pattern :=
  [Kokoro.xml_decl;
   Kokoro.open_tag "speak"; Kokoro.close_tag "speak";
   Kokoro.break_tag;
   Kokoro.open_tag "prosody"; Kokoro.close_tag "prosody";
   Kokoro.open_tag "emphasis"; Kokoro.close_tag "emphasis";
   Kokoro.open_tag "say-as"; Kokoro.close_tag "say-as";
   Re.chars "<p>"; Re.chars "</p>";
   Kokoro.blanks;
   BuildBook.top_header].

(** * Concrete runs *)
Module Runs.

Definition md (n : string) : path := [lit "models"; lit n].

(** Two notes: the first cannot be read, the second is refused by the
    endpoint. *)
Definition unreadable_and_refused : Convert.world :=
  {| Convert.md_found := [md "a.md"; md "b.md"];
     Convert.read_markdown := fun p =>
       if str_eqb (name p) (lit "a.md")
       then ReadErr (lit "[Errno 13] Permission denied")
       else ReadOk (lit "# B");
     Convert.openrouter := fun _ => Convert.RequestFailed;
     Convert.write_error := fun _ _ => None;
     Convert.now := lit "2025-01-01T00:00:00" |}.

(** One note whose SSML cannot be saved. *)
Definition disk_full : Convert.world :=
  {| Convert.md_found := [md "a.md"];
     Convert.read_markdown := fun _ => ReadOk (lit "# A");
     Convert.openrouter := fun _ => Convert.Content (lit "<speak>A</speak>");
     Convert.write_error := fun _ _ =>
       Some (lit "[Errno 28] No space left on device");
     Convert.now := lit "2025-01-01T00:00:00" |}.

(** Two notes, both converted and saved. *)
Definition all_fine : Convert.world :=
  {| Convert.md_found := [md "b.md"; md "a.md"];
     Convert.read_markdown := fun _ => ReadOk (lit "# A");
     Convert.openrouter := fun _ => Convert.Content (lit "<speak>A</speak>");
     Convert.write_error := fun _ _ => None;
     Convert.now := lit "2025-01-01T00:00:00" |}.

(** Seven notes; the endpoint refuses the two whose text is "bad". *)
Definition seven_notes : Convert.world :=
  {| Convert.md_found :=
       [md "n1.md"; md "n2.md"; md "n3.md"; md "n4.md"; md "n5.md";
        md "n6.md"; md "n7.md"];
     Convert.read_markdown := fun p =>
       if str_eqb (name p) (lit "n6.md") || str_eqb (name p) (lit "n7.md")
       then ReadOk (lit "bad") else ReadOk (lit "good");
     Convert.openrouter := fun content =>
       if str_eqb content (lit "bad") then Convert.RequestFailed
       else Convert.Content (lit "<speak>good</speak>");
     Convert.write_error := fun _ _ => None;
     Convert.now := lit "2025-01-02T00:00:00" |}.

(** The manifest that run leaves: five successes, two failures. *)
Definition seven_manifest : Convert.manifest :=
  match Convert.process_notebook seven_notes with
  | Done m => m
  | _ => {| Convert.generated_at := []; Convert.total_files := 0;
            Convert.files := [] |}
  end.

(** The SSML directory after it: the five new files and the files n6.ssml
    and n7.ssml that an earlier run had written. *)
Definition seven_ssml : list path :=
  [md "n1.ssml"; md "n2.ssml"; md "n3.ssml"; md "n4.ssml"; md "n5.ssml";
   md "n6.ssml"; md "n7.ssml"].

Definition kokoro_after_seven : Kokoro.world :=
  {| Kokoro.manifest_json := Podcast.Loaded seven_manifest;
     Kokoro.ssml_found := seven_ssml;
     Kokoro.read_ssml := fun _ => ReadOk (lit "<speak>good</speak>");
     Kokoro.hf_inference := fun _ => Podcast.Response 200 [];
     Kokoro.write_ok := fun _ => true;
     Kokoro.write_list := fun _ => true;
     Kokoro.ffmpeg := fun _ _ => Podcast.Exited 0;
     Kokoro.now := lit "2025-01-03T00:00:00";
     Kokoro.today := lit "20250103" |}.

Definition edge_after_seven : EdgeTts.world :=
  {| EdgeTts.manifest_json := Podcast.Loaded seven_manifest;
     EdgeTts.ssml_found := seven_ssml;
     EdgeTts.read_ssml := fun _ => ReadOk (lit "<speak>good</speak>");
     EdgeTts.edge_tts := fun _ _ _ => Podcast.Exited 0;
     EdgeTts.write_list := fun _ => true;
     EdgeTts.ffmpeg := fun _ _ => Podcast.Exited 0;
     EdgeTts.now := lit "2025-01-03T00:00:00";
     EdgeTts.today := lit "20250103" |}.

(** A directory with one SSML file of the given content. *)
Definition kokoro_one (content : string) : Kokoro.world :=
  {| Kokoro.manifest_json := Podcast.Loaded seven_manifest;
     Kokoro.ssml_found := [md "n1.ssml"];
     Kokoro.read_ssml := fun _ => ReadOk (lit content);
     Kokoro.hf_inference := fun _ => Podcast.Response 200 [];
     Kokoro.write_ok := fun _ => true;
     Kokoro.write_list := fun _ => true;
     Kokoro.ffmpeg := fun _ _ => Podcast.Exited 0;
     Kokoro.now := lit "2025-01-03T00:00:00";
     Kokoro.today := lit "20250103" |}.

Definition edge_one (content : string) : EdgeTts.world :=
  {| EdgeTts.manifest_json := Podcast.Loaded seven_manifest;
     EdgeTts.ssml_found := [md "n1.ssml"];
     EdgeTts.read_ssml := fun _ => ReadOk (lit content);
     EdgeTts.edge_tts := fun _ _ _ => Podcast.Exited 0;
     EdgeTts.write_list := fun _ => true;
     EdgeTts.ffmpeg := fun _ _ => Podcast.Exited 0;
     EdgeTts.now := lit "2025-01-03T00:00:00";
     EdgeTts.today := lit "20250103" |}.

(** A catalog with three notes under "models"; the second cannot be
    read. *)
Definition note (n : string) : path :=
  BuildBook.notebook_dir ++ [lit "models"; lit n].

Definition three_notes : BuildBook.dict :=
  [(lit "models", [note "a-first.md"; note "b-second.md";
                   note "c-third.md"])].

Definition second_unreadable : BuildBook.world :=
  {| BuildBook.notebook := [];
     BuildBook.read_file := fun p =>
       if str_eqb (name p) (lit "b-second.md")
       then ReadErr (lit "[Errno 13] Permission denied")
       else ReadOk (lit "Some text.") |}.

(** A note that opens with an empty top-level heading. *)
Definition empty_heading_note : str :=
  lit "#" ++ [nl] ++ lit "## Details" ++ [nl] ++ lit "text".

Definition empty_heading_world : BuildBook.world :=
  {| BuildBook.notebook := [];
     BuildBook.read_file := fun _ => ReadOk empty_heading_note |}.

(** A notebook with two topics that have files, a topic directory without
    files, a directory that is no topic, and a file. *)
Definition dir (n : string) (files : list string) : BuildBook.dir_entry :=
  {| BuildBook.entry_name := lit n;
     BuildBook.is_dir := true;
     BuildBook.children := map lit files |}.

Definition small_notebook : BuildBook.world :=
  {| BuildBook.notebook :=
       [dir "models" ["whisper.md"; "README.txt"; "a-intro.md"]%string;
        dir "drafts" ["x.md"]%string;
        dir "notes" [];
        dir "amd" ["rocm.md"]%string;
        {| BuildBook.entry_name := lit "README.md";
           BuildBook.is_dir := false;
           BuildBook.children := [] |}];
     BuildBook.read_file := fun _ => ReadOk (lit "Some text.") |}.



End Runs.

(** * Further definitions *)

(** The source file can be read. *)
Definition readable (w : Convert.world) (p : path) : bool :=
  match Convert.read_markdown w p with
  | ReadOk _ => true
  | ReadErr _ => false
  end.

(** The request made for a readable item ends in an exception that
    [convert_to_ssml] does not catch. *)
Definition breaks (w : Convert.world) (p : path) : Prop :=
  exists content,
    Convert.read_markdown w p = ReadOk content
    /\ Convert.openrouter w content = Convert.Unexpected.

(** How the fields of a conversion entry go together. *)
Definition well_shaped (e : Convert.entry) : Prop :=
  (Convert.status e = lit "success"
   /\ Convert.output e <> None /\ Convert.error e = None)
  \/ (Convert.status e = lit "error"
      /\ Convert.output e <> None /\ Convert.error e <> None)
  \/ (Convert.status e = lit "conversion_failed"
      /\ Convert.output e = None /\ Convert.error e = None).

(** The synthesis of one SSML file succeeds. *)
Definition kokoro_succeeds (w : Kokoro.world) (rel_path : path) : bool :=
  fst (Kokoro.convert_ssml_to_audio_kokoro w rel_path
         (Podcast.audio_file_of ".wav" rel_path)).

Definition edge_succeeds (w : EdgeTts.world) (voice : str) (rel_path : path)
  : bool :=
  fst (EdgeTts.convert_ssml_to_audio w rel_path
         (Podcast.audio_file_of ".mp3" rel_path) voice).

(** What one turn of each loop does to the outside world. *)
Definition kokoro_events (w : Kokoro.world) (rel_path : path)
  : list Podcast.event :=
  snd (Kokoro.convert_ssml_to_audio_kokoro w rel_path
         (Podcast.audio_file_of ".wav" rel_path)).

Definition edge_events (w : EdgeTts.world) (voice : str) (rel_path : path)
  : list Podcast.event :=
  snd (EdgeTts.convert_ssml_to_audio w rel_path
         (Podcast.audio_file_of ".mp3" rel_path) voice).

Definition is_ffmpeg (ev : Podcast.event) : bool :=
  match ev with
  | Podcast.RunFfmpeg _ _ => true
  | _ => false
  end.

(** The number of entries with status success. *)
Definition successes (es : list Podcast.entry) : nat :=
  List.length
    (filter (fun e => str_eqb (Podcast.status e) (lit "success")) es).

(** The text each script sends to its backend for one file, if any. *)
Definition kokoro_text (w : Kokoro.world) (rel_path : path) : list str :=
  match Kokoro.read_ssml w rel_path with
  | ReadOk content =>
      match Kokoro.strip_ssml_tags content with
      | [] => []
      | text => [text]
      end
  | ReadErr _ => []
  end.

Definition edge_text (w : EdgeTts.world) (rel_path : path) : list str :=
  match EdgeTts.read_ssml w rel_path with
  | ReadOk content => [content]
  | ReadErr _ => []
  end.

Definition nonempty (A : Type) (l : list A) : bool :=
  match l with
  | [] => false
  | _ :: _ => true
  end.

(** ffmpeg ended with return code 0. *)
Definition exited_0 (r : Podcast.run_result) : bool :=
  match r with
  | Podcast.Exited 0 => true
  | _ => false
  end.

(** The combined podcast file of each script. *)
Definition kokoro_podcast_file (w : Kokoro.world) : path :=
  [lit "stt-finetune-podcast-" ++ Kokoro.today w ++ lit ".wav"].

Definition edge_podcast_file (w : EdgeTts.world) : path :=
  [lit "stt-finetune-podcast-" ++ EdgeTts.today w ++ lit ".mp3"].

(** A topic directory with an unreadable file whose name holds a line break
    followed by "# ", and a readable file after it.  The message is the one
    of Python's [PermissionError], which quotes the name with the line
    break escaped. *)
Definition broken_name : str := lit "a" ++ [nl] ++ lit "# b.md".

Definition broken_name_error : str :=
  lit "[Errno 13] Permission denied: '../notebook/models/a\n# b.md'".

Definition newline_notebook : BuildBook.world :=
  {| BuildBook.notebook :=
       [{| BuildBook.entry_name := lit "models";
           BuildBook.is_dir := true;
           BuildBook.children := [lit "z-last.md"; broken_name] |}];
     BuildBook.read_file := fun p =>
       if str_eqb (name p) broken_name
       then ReadErr broken_name_error
       else ReadOk (lit "Some text.") |}.

(** Three notes; the endpoint answers the second with a body that has no
    "choices". *)
Definition one_bad_reply : Convert.world :=
  {| Convert.md_found := [Runs.md "a.md"; Runs.md "b.md"; Runs.md "c.md"];
     Convert.read_markdown := fun p =>
       if str_eqb (name p) (lit "b.md")
       then ReadOk (lit "# B")
       else ReadOk (lit "# A");
     Convert.openrouter := fun content =>
       if str_eqb content (lit "# B")
       then Convert.Unexpected
       else Convert.Content (lit "<speak>A</speak>");
     Convert.write_error := fun _ _ => None;
     Convert.now := lit "2025-01-01T00:00:00" |}.

(** Seven SSML files that are all synthesized, in an output directory where
    concat_list.txt cannot be written. *)
Definition edge_list_unwritable : EdgeTts.world :=
  {| EdgeTts.manifest_json := Podcast.Loaded Runs.seven_manifest;
     EdgeTts.ssml_found := Runs.seven_ssml;
     EdgeTts.read_ssml := fun _ => ReadOk (lit "<speak>good</speak>");
     EdgeTts.edge_tts := fun _ _ _ => Podcast.Exited 0;
     EdgeTts.write_list := fun _ => false;
     EdgeTts.ffmpeg := fun _ _ => Podcast.Exited 0;
     EdgeTts.now := lit "2025-01-03T00:00:00";
     EdgeTts.today := lit "20250103" |}.

(** ** The scripts as they are started *)
Module Cli.

(** Running a program with [check=True] to see whether it is there. *)
Inductive probe : Type :=
| ProbeExited (returncode : nat)  (* non-zero: CalledProcessError *)
| ProbeNotFound                   (* FileNotFoundError *)
| ProbeRaised.                    (* any other exception *)

(** [os.getenv(a) or os.getenv(b)]. *)
Definition getenv_or (a b : option str) : option str :=
  match a with
  | Some (_ :: _) => a
  | _ => b
  end.

(** [if not KEY]: the variable is unset or empty. *)
Definition unset (key : option str) : bool :=
  match key with
  | Some (_ :: _) => false
  | _ => true
  end.

(** The try block around [ffmpeg -version] in both [main]s: whether
    concatenation has to be switched off. *)
Definition ffmpeg_missing (p : probe) : outcome bool :=
  match p with
  | ProbeExited 0 => Done false
  | ProbeExited _ => Done true
  | ProbeNotFound => Done true
  | ProbeRaised => Uncaught
  end.

(** scripts/convert-to-ssml.py from its first line: the key check at
    import, then [main]. *)
Definition convert_script (OPENROUTER_API_KEY : option str)
    (w : Convert.world) : outcome Convert.manifest :=
  if unset OPENROUTER_API_KEY then SysExit 1
  else Convert.process_notebook w.

(** scripts/generate-podcast-kokoro.py from its first line: the token check
    at import, then [main] with the flag --no-concatenate. *)
Definition kokoro_script (HF_TOKEN HF_API_KEY : option str)
    (ffmpeg_version : probe) (w : Kokoro.world) (no_concatenate : bool)
  : outcome (Podcast.manifest * list Podcast.event) :=
  if unset (getenv_or HF_TOKEN HF_API_KEY) then SysExit 1
  else if no_concatenate
       then Kokoro.process_ssml_directory w (negb true)
       else match ffmpeg_missing ffmpeg_version with
            | Done missing =>
                Kokoro.process_ssml_directory w (negb missing)
            | SysExit code => SysExit code
            | Uncaught => Uncaught
            end.

(** [check_edge_tts]. *)
Definition check_edge_tts (edge_tts_version : probe) : outcome bool :=
  match edge_tts_version with
  | ProbeExited 0 => Done true
  | ProbeExited _ => Done false
  | ProbeNotFound => Done false
  | ProbeRaised => Uncaught
  end.

(** [install_edge_tts]: only a failing pip is caught. *)
Definition install_edge_tts (pip_install : probe) : outcome bool :=
  match pip_install with
  | ProbeExited 0 => Done true
  | ProbeExited _ => Done false
  | ProbeNotFound => Uncaught
  | ProbeRaised => Uncaught
  end.

(** [list_available_voices]: only a failing edge-tts is caught. *)
Definition list_available_voices (list_voices : probe) : outcome unit :=
  match list_voices with
  | ProbeExited _ => Done tt
  | ProbeNotFound => Uncaught
  | ProbeRaised => Uncaught
  end.

(** The arguments of generate-podcast.py. *)
Record edge_args : Type := {
  voice : str;
  list_voices : bool;
  no_concatenate : bool
}.

(** What the programs on the host answer. *)
Record host : Type := {
  edge_tts_version : probe;
  edge_tts_list_voices : probe;
  pip_install : probe;
  ffmpeg_version : probe
}.

(** [main] of generate-podcast.py; [None] when it returns without
    processing. *)
Definition edge_main (h : host) (w : EdgeTts.world) (args : edge_args)
  : outcome (option (Podcast.manifest * list Podcast.event)) :=
  if list_voices args
  then match list_available_voices (edge_tts_list_voices h) with
       | Done _ => Done None
       | SysExit code => SysExit code
       | Uncaught => Uncaught
       end
  else
    let continue :=
      match ffmpeg_missing (ffmpeg_version h) with
      | Done missing =>
          let no_concatenate := if missing then true
                                else no_concatenate args in
          match EdgeTts.process_ssml_directory w (voice args)
                  (negb no_concatenate) with
          | Done r => Done (Some r)
          | SysExit code => SysExit code
          | Uncaught => Uncaught
          end
      | SysExit code => SysExit code
      | Uncaught => Uncaught
      end in
    match check_edge_tts (edge_tts_version h) with
    | Done true => continue
    | Done false =>
        match install_edge_tts (pip_install h) with
        | Done true => continue
        | Done false => SysExit 1
        | SysExit code => SysExit code
        | Uncaught => Uncaught
        end
    | SysExit code => SysExit code
    | Uncaught => Uncaught
    end.

End Cli.

(** A host on which edge-tts has to be installed and ffmpeg is missing. *)
Definition bare_host : Cli.host :=
  {| Cli.edge_tts_version := Cli.ProbeNotFound;
     Cli.edge_tts_list_voices := Cli.ProbeNotFound;
     Cli.pip_install := Cli.ProbeExited 0;
     Cli.ffmpeg_version := Cli.ProbeNotFound |}.

Definition default_args : Cli.edge_args :=
  {| Cli.voice := EdgeTts.DEFAULT_VOICE;
     Cli.list_voices := false;
     Cli.no_concatenate := false |}.

(** The character before the position reached after [xs]. *)
Definition prev_after (prev : option ascii) (xs : str) : option ascii :=
  match rev xs with
  | [] => prev
  | x :: _ => Some x
  end.

(** The line is no top-level heading for the pattern of
    [build_master_document]: it does not open with "#" and a blank, and is
    not "#" alone. *)
Definition no_heading (line : str) : bool :=
  match line with
  | [] => true
  | c :: l =>
      if eqc "#" c
      then match l with
           | [] => false
           | b :: _ => negb (is_space b)
           end
      else true
  end.

(** Where a collected file comes from: a directory of the notebook with the
    name of the topic, and a name in it that ends in ".md". *)
Definition collected_from (w : BuildBook.world) (k : str) (f : path)
  : Prop :=
  exists d n,
    In d (BuildBook.notebook w)
    /\ BuildBook.is_dir d = true
    /\ BuildBook.entry_name d = k
    /\ In n (BuildBook.children d)
    /\ BuildBook.ends_with (lit ".md") n = true
    /\ f = BuildBook.notebook_dir ++ [k; n].

(** [main] of build_book.py: the number it prints as the number of files
    found, and the text it writes. *)
Definition book_main (w : BuildBook.world) : nat * str :=
  let organized_files := BuildBook.collect_files w in
  let total_files :=
    fold_left (fun n kv => n + List.length (snd kv)) organized_files 0 in
  (total_files, BuildBook.build_master_document w organized_files).

(** The files that get a chapter, in the order of the book. *)
Definition chapters (organized_files : BuildBook.dict) : list path :=
  flat_map (fun t => BuildBook.files_of organized_files (BuildBook.key t))
    (BookSpec.shown organized_files).


(** A top-level heading line with text: "#", a blank, and somewhere after
    it a character that is no blank. *)
Definition heading_with_text (line : str) : bool :=
  match line with
  | c :: b :: rest =>
      eqc "#" c && is_space b && negb (forallb is_space rest)
  | _ => false
  end.

(** What is to become of the lines of a chapter: a top-level heading with
    text is emptied, the other lines stay. *)
Definition without_top_headings (lines : list str) : list str :=
  map (fun line => if heading_with_text line then [] else line) lines.

(** The lines that the heading pattern treats one by one: no line break
    inside, and no bare heading, which is "#" followed by blanks only. *)
Definition plain_line (line : str) : Prop :=
  has_char nl line = false
  /\ (no_heading line = true \/ heading_with_text line = true).

(** ** SSML markers *)

(** The elements [strip_ssml_tags] has an opening and a closing pattern
    for. *)
Inductive tag_name : Type := Speak | Prosody | Emphasis | SayAs.

Definition tag_string (n : tag_name) : string :=
  match n with
  | Speak => "speak"
  | Prosody => "prosody"
  | Emphasis => "emphasis"
  | SayAs => "say-as"
  end.

(** The twelve substitutions of [strip_ssml_tags] that come before the
    blanks are collapsed. *)
Inductive pass : Type :=
| PXml
| POpen (n : tag_name)
| PClose (n : tag_name)
| PBreak
| PPar
| PEndPar.

Definition pattern_of (p : pass) : Re.pattern :=
  match p with
  | PXml => Kokoro.xml_decl
  | POpen n => Kokoro.open_tag (tag_string n)
  | PClose n => Kokoro.close_tag (tag_string n)
  | PBreak => Kokoro.break_tag
  | PPar => Re.chars "<p>"
  | PEndPar => Re.chars "</p>"
  end.


(** The order in which [strip_ssml_tags] applies them. *)
Definition passes_in_order : list pass :=
  [PXml; POpen Speak; PClose Speak; PBreak; POpen Prosody; PClose Prosody;
   POpen Emphasis; PClose Emphasis; POpen SayAs; PClose SayAs; PPar;
   PEndPar].


(** [pat] matches at the head of [s]. *)
Definition matches_at (pat : Re.pattern) (s : str) : bool :=
  match Re.match_here pat None s with
  | Some _ => true
  | None => false
  end.

(** [pat] matches somewhere in [s]. *)
Fixpoint found (pat : Re.pattern) (s : str) : bool :=
  match s with
  | [] => false
  | _ :: s' => matches_at pat s || found pat s'
  end.

(** The text holds a recognized marker: one of the twelve patterns matches
    somewhere in it. *)
Definition has_marker (s : str) : bool :=
  existsb (fun p => found (pattern_of p) s) passes_in_order.


















(** * Properties *)

(** ** [sorted] *)
Section SortedFacts.
Variable A : Type.
Variable leb : A -> A -> bool.

Lemma insert_perm (x : A) (l : list A) :
  Permutation (insert leb x l) (x :: l).
Proof.
  induction l as [|y l IH]; simpl.
  - apply Permutation_refl.
  - destruct (leb x y).
    + apply Permutation_refl.
    + eapply perm_trans; [apply perm_skip, IH | apply perm_swap].
Qed.

Lemma sorted_perm (l : list A) : Permutation (sorted leb l) l.
Proof.
  induction l as [|x l IH]; simpl.
  - apply perm_nil.
  - eapply perm_trans; [apply insert_perm | apply perm_skip, IH].
Qed.

Lemma sorted_length (l : list A) :
  List.length (sorted leb l) = List.length l.
Proof. apply Permutation_length, sorted_perm. Qed.

Lemma sorted_in (x : A) (l : list A) : In x (sorted leb l) <-> In x l.
Proof.
  split; apply Permutation_in;
    [apply sorted_perm | apply Permutation_sym, sorted_perm].
Qed.

Lemma sorted_nil_inv (l : list A) : sorted leb l = [] -> l = [].
Proof.
  intros H. apply length_zero_iff_nil.
  rewrite <- sorted_length, H. reflexivity.
Qed.

Hypothesis leb_total : forall x y, leb x y = true \/ leb y x = true.
Hypothesis leb_trans :
  forall x y z, leb x y = true -> leb y z = true -> leb x z = true.

Lemma insert_sorted (x : A) (l : list A) :
  StronglySorted (holds leb) l -> StronglySorted (holds leb) (insert leb x l).
Proof.
  induction 1 as [|y l Hs IH Hall]; simpl.
  - constructor; constructor.
  - destruct (leb x y) eqn:E.
    + constructor; [constructor; assumption|].
      constructor; [exact E|].
      eapply Forall_impl; [|exact Hall].
      intros z Hz. eapply leb_trans; eassumption.
    + constructor; [exact IH|].
      assert (Hyx : holds leb y x).
      { destruct (leb_total x y) as [H|H]; [congruence | exact H]. }
      eapply Permutation_Forall.
      * apply Permutation_sym, insert_perm.
      * constructor; assumption.
Qed.

Lemma sorted_sorted (l : list A) : StronglySorted (holds leb) (sorted leb l).
Proof.
  induction l as [|x l IH]; simpl.
  - constructor.
  - apply insert_sorted, IH.
Qed.
End SortedFacts.

(** Sorting commutes with a map that carries one order to the other. *)
Lemma sorted_map (A B : Type) (f : A -> B) (lebA : A -> A -> bool)
    (lebB : B -> B -> bool)
    (Hf : forall x y, lebB (f x) (f y) = lebA x y) (l : list A) :
  sorted lebB (map f l) = map f (sorted lebA l).
Proof.
  assert (Hins : forall x m,
             insert lebB (f x) (map f m) = map f (insert lebA x m)).
  { intros x m. induction m as [|y m IH]; simpl; [reflexivity|].
    rewrite Hf. destruct (lebA x y); simpl; [reflexivity|].
    now rewrite IH. }
  induction l as [|x l IH]; simpl; [reflexivity|].
  now rewrite IH, Hins.
Qed.

(** ** The conversion stage *)

Lemma process_one_statuses (w : Convert.world) (p : path) (es : list Convert.entry) :
  Convert.process_one w p = Done es ->
  Forall (fun e => In (Convert.status e) conversion_statuses) es.
Proof.
  unfold Convert.process_one, Convert.convert_to_ssml.
  destruct (Convert.read_markdown w p) as [content|msg].
  - destruct (Convert.openrouter w content) as [[|c ssml]| |];
      try discriminate.
    + intros [= <-]. constructor; [|constructor]. simpl. auto.
    + destruct (Convert.write_error w _ _); intros [= <-];
        (constructor; [|constructor]); simpl; auto.
    + intros [= <-]. constructor; [|constructor]. simpl. auto.
  - intros [= <-]. constructor.
Qed.

Lemma process_files_statuses (w : Convert.world) (l : list path) :
  forall acc es,
    Convert.process_files w acc l = Done es ->
    Forall (fun e => In (Convert.status e) conversion_statuses) acc ->
    Forall (fun e => In (Convert.status e) conversion_statuses) es.
Proof.
  induction l as [|p l IH]; simpl; intros acc es H Hacc.
  - now injection H as <-.
  - destruct (Convert.process_one w p) as [es1| |] eqn:E; try discriminate.
    apply (IH _ _ H). apply Forall_app. split; [exact Hacc|].
    exact (process_one_statuses _ _ E).
Qed.

Lemma process_one_handled (w : Convert.world) (p : path) :
  handled w p ->
  exists e, Convert.process_one w p = Done [e]
            /\ Convert.source e = path_str p.
Proof.
  intros (content & Hr & Ho).
  unfold Convert.process_one, Convert.convert_to_ssml. rewrite Hr.
  destruct (Convert.openrouter w content) as [[|c ssml]| |];
    try congruence.
  - eexists; split; reflexivity.
  - destruct (Convert.write_error w _ _); eexists; split; reflexivity.
  - eexists; split; reflexivity.
Qed.

Lemma process_files_handled (w : Convert.world) (l : list path) :
  (forall p, In p l -> handled w p) ->
  forall acc,
  exists es, Convert.process_files w acc l = Done (acc ++ es)
             /\ map Convert.source es = map path_str l.
Proof.
  induction l as [|p l IH]; simpl; intros Hall acc.
  - exists []. now rewrite app_nil_r.
  - destruct (process_one_handled (Hall p (or_introl eq_refl)))
      as (e & -> & Hsrc).
    destruct (IH (fun q Hq => Hall q (or_intror Hq)) (acc ++ [e]))
      as (es & -> & Hmap).
    exists (e :: es). rewrite <- app_assoc. simpl.
    now rewrite Hsrc, Hmap.
Qed.

(** ** The synthesis stages *)

Lemma kokoro_fold (w : Kokoro.world) (l : list path) :
  forall st,
    Podcast.entries (fold_left (Kokoro.process_one w) l st)
    = Podcast.entries st ++ map (kokoro_entry w) l.
Proof.
  induction l as [|p l IH]; simpl; intros st.
  - now rewrite app_nil_r.
  - rewrite IH. unfold Kokoro.process_one, kokoro_entry.
    destruct (Kokoro.convert_ssml_to_audio_kokoro w p _) as [[|] evs];
      simpl; now rewrite <- app_assoc.
Qed.

Lemma edge_fold (w : EdgeTts.world) (voice : str) (l : list path) :
  forall st,
    Podcast.entries (fold_left (EdgeTts.process_one w voice) l st)
    = Podcast.entries st ++ map (edge_entry w voice) l.
Proof.
  induction l as [|p l IH]; simpl; intros st.
  - now rewrite app_nil_r.
  - rewrite IH. unfold EdgeTts.process_one, edge_entry.
    destruct (EdgeTts.convert_ssml_to_audio w p _ voice) as [[|] evs];
      simpl; now rewrite <- app_assoc.
Qed.

(** Past its two checks, the Kokoro script writes one entry per SSML file
    found, in sorted order. *)
Lemma kokoro_stage_files (w : Kokoro.world) (concatenate : bool)
    (cm : Convert.manifest) :
  Kokoro.manifest_json w = Podcast.Loaded cm ->
  Kokoro.ssml_found w <> [] ->
  exists m evs,
    Kokoro.process_ssml_directory w concatenate = Done (m, evs)
    /\ Podcast.files m
       = map (kokoro_entry w) (sorted path_leb (Kokoro.ssml_found w)).
Proof.
  intros Hm Hne. unfold Kokoro.process_ssml_directory. rewrite Hm.
  destruct (sorted path_leb (Kokoro.ssml_found w)) as [|p l] eqn:E.
  - now apply sorted_nil_inv in E.
  - destruct concatenate;
      [destruct (Podcast.audio_files _);
       [|destruct (Podcast.concatenate_audio_files _ _ _ _) as [[|] ?]]|];
      do 2 eexists; (split; [reflexivity|]);
      cbn [Podcast.files]; now rewrite kokoro_fold.
Qed.

Lemma edge_stage_files (w : EdgeTts.world) (voice : str) (concatenate : bool)
    (cm : Convert.manifest) :
  EdgeTts.manifest_json w = Podcast.Loaded cm ->
  EdgeTts.ssml_found w <> [] ->
  exists m evs,
    EdgeTts.process_ssml_directory w voice concatenate = Done (m, evs)
    /\ Podcast.files m
       = map (edge_entry w voice) (sorted path_leb (EdgeTts.ssml_found w)).
Proof.
  intros Hm Hne. unfold EdgeTts.process_ssml_directory. rewrite Hm.
  destruct (sorted path_leb (EdgeTts.ssml_found w)) as [|p l] eqn:E.
  - now apply sorted_nil_inv in E.
  - destruct concatenate;
      [destruct (Podcast.audio_files _);
       [|destruct (Podcast.concatenate_audio_files _ _ _ _) as [[|] ?]]|];
      do 2 eexists; (split; [reflexivity|]);
      cbn [Podcast.files]; now rewrite edge_fold.
Qed.

Lemma kokoro_entry_source (w : Kokoro.world) (p : path) :
  Podcast.ssml_source (kokoro_entry w p) = path_str p.
Proof. unfold kokoro_entry. now destruct (fst _). Qed.

Lemma edge_entry_source (w : EdgeTts.world) (voice : str) (p : path) :
  Podcast.ssml_source (edge_entry w voice p) = path_str p.
Proof. unfold edge_entry. now destruct (fst _). Qed.

Lemma kokoro_entry_status (w : Kokoro.world) (p : path) :
  In (Podcast.status (kokoro_entry w p)) synthesis_statuses.
Proof. unfold kokoro_entry. destruct (fst _); simpl; auto. Qed.

Lemma edge_entry_status (w : EdgeTts.world) (voice : str) (p : path) :
  In (Podcast.status (edge_entry w voice p)) synthesis_statuses.
Proof. unfold edge_entry. destruct (fst _); simpl; auto. Qed.

Lemma kokoro_entries_all (w : Kokoro.world) (concatenate : bool) :
  exists l,
    podcast_entries (Kokoro.process_ssml_directory w concatenate)
    = map (kokoro_entry w) l.
Proof.
  unfold Kokoro.process_ssml_directory.
  destruct (Kokoro.manifest_json w); try (now exists []).
  destruct (sorted path_leb (Kokoro.ssml_found w)) as [|p l];
    [now exists []|].
  exists (p :: l).
  destruct concatenate;
    [destruct (Podcast.audio_files _);
     [|destruct (Podcast.concatenate_audio_files _ _ _ _) as [[|] ?]]|];
    cbn [podcast_entries Podcast.files]; now rewrite kokoro_fold.
Qed.

Lemma edge_entries_all (w : EdgeTts.world) (voice : str)
    (concatenate : bool) :
  exists l,
    podcast_entries (EdgeTts.process_ssml_directory w voice concatenate)
    = map (edge_entry w voice) l.
Proof.
  unfold EdgeTts.process_ssml_directory.
  destruct (EdgeTts.manifest_json w); try (now exists []).
  destruct (sorted path_leb (EdgeTts.ssml_found w)) as [|p l];
    [now exists []|].
  exists (p :: l).
  destruct concatenate;
    [destruct (Podcast.audio_files _);
     [|destruct (Podcast.concatenate_audio_files _ _ _ _) as [[|] ?]]|];
    cbn [podcast_entries Podcast.files]; now rewrite edge_fold.
Qed.

(** ** The manifests of the stages *)

(** C2, as the code has it: when every source item is read and no request
    ends in an exception other than a request exception, the conversion
    stage returns a manifest with exactly one entry per item, in sorted
    path order, each with status success, error or conversion_failed. *)
Theorem conversion_one_entry_per_handled_item (w : Convert.world)
    (Hall : forall p, In p (Convert.md_found w) -> handled w p) :
  exists m,
    Convert.process_notebook w = Done m
    /\ List.length (Convert.files m) = List.length (Convert.md_found w)
    /\ map Convert.source (Convert.files m)
       = map path_str (sorted path_leb (Convert.md_found w))
    /\ Forall (fun e => In (Convert.status e) conversion_statuses)
         (Convert.files m).
Proof.
  unfold Convert.process_notebook.
  destruct (@process_files_handled w (sorted path_leb (Convert.md_found w)))
    with (acc := @nil Convert.entry) as (es & Hrun & Hsrc).
  { intros p Hp. apply Hall. now apply sorted_in in Hp. }
  rewrite Hrun. simpl. eexists. split; [reflexivity|]. simpl.
  repeat split.
  - rewrite <- (length_map Convert.source), Hsrc, length_map.
    apply sorted_length.
  - exact Hsrc.
  - eapply process_files_statuses; [exact Hrun | constructor].
Qed.

Lemma conversion_one_entry_per_handled_item_witness :
  exists m,
    Convert.process_notebook Runs.all_fine = Done m
    /\ List.length (Convert.files m) = 2
    /\ map Convert.source (Convert.files m)
       = [lit "models/a.md"; lit "models/b.md"]
    /\ Forall (fun e => In (Convert.status e) conversion_statuses)
         (Convert.files m).
Proof.
  apply (@conversion_one_entry_per_handled_item Runs.all_fine).
  intros p _. exists (lit "# A"). split; [reflexivity | discriminate].
Defined.

(** C2 fails on a run over two items of which the first cannot be read and
    the second is refused by the endpoint: the manifest has one entry for
    the two items, and its status is neither success nor failed. *)
Lemma conversion_drops_unreadable_item :
  exists m,
    Convert.process_notebook Runs.unreadable_and_refused = Done m
    /\ List.length (Convert.md_found Runs.unreadable_and_refused) = 2
    /\ List.length (Convert.files m) = 1
    /\ map Convert.source (Convert.files m) = [lit "models/b.md"]
    /\ map Convert.status (Convert.files m) = [lit "conversion_failed"]
    /\ ~ Forall
           (fun e => In (Convert.status e) [lit "success"; lit "failed"])
           (Convert.files m).
Proof.
  eexists. split; [reflexivity|]. repeat split.
  intros H. inversion H as [|e l He _]; subst.
  simpl in He. destruct He as [He|[He|[]]]; discriminate He.
Qed.

(** C3, as the code has it: the conversion stage writes only the statuses
    success, error and conversion_failed, and both synthesis stages write
    only success and failed. *)
Theorem manifest_statuses (cw : Convert.world) (kw : Kokoro.world)
    (ew : EdgeTts.world) (voice : str) (concatenate : bool) :
  Forall (fun e => In (Convert.status e) conversion_statuses)
    (conversion_entries (Convert.process_notebook cw))
  /\ Forall (fun e => In (Podcast.status e) synthesis_statuses)
       (podcast_entries (Kokoro.process_ssml_directory kw concatenate))
  /\ Forall (fun e => In (Podcast.status e) synthesis_statuses)
       (podcast_entries
          (EdgeTts.process_ssml_directory ew voice concatenate)).
Proof.
  repeat split.
  - unfold Convert.process_notebook.
    destruct (Convert.process_files cw [] _) as [es| |] eqn:E;
      simpl; try constructor.
    eapply process_files_statuses; [exact E | constructor].
  - destruct (kokoro_entries_all kw concatenate) as (l & ->).
    apply Forall_map, Forall_forall. intros p _.
    apply kokoro_entry_status.
  - destruct (edge_entries_all ew voice concatenate) as (l & ->).
    apply Forall_map, Forall_forall. intros p _.
    apply edge_entry_status.
Qed.

(** C3 fails on a conversion run whose output cannot be saved: the entry
    has the status error, which is none of success, failed, skipped. *)
Lemma conversion_status_outside_spec :
  exists e,
    conversion_entries (Convert.process_notebook Runs.disk_full) = [e]
    /\ Convert.status e = lit "error"
    /\ ~ In (Convert.status e) spec_statuses.
Proof.
  eexists. split; [reflexivity|]. split; [reflexivity|].
  simpl. intros [H|[H|[H|[]]]]; discriminate H.
Qed.

(** C1, as the code has it: once the conversion manifest is found and
    parsed and at least one SSML file exists, each synthesis script
    processes exactly the SSML files found under the SSML directory, in
    sorted path order and one manifest entry each, whatever the conversion
    manifest records. *)
Theorem synthesis_processes_files_found (kw : Kokoro.world)
    (ew : EdgeTts.world) (voice : str) (concatenate : bool)
    (km em : Convert.manifest)
    (Hkm : Kokoro.manifest_json kw = Podcast.Loaded km)
    (Hkf : Kokoro.ssml_found kw <> [])
    (Hem : EdgeTts.manifest_json ew = Podcast.Loaded em)
    (Hef : EdgeTts.ssml_found ew <> []) :
  (exists m evs,
      Kokoro.process_ssml_directory kw concatenate = Done (m, evs)
      /\ map Podcast.ssml_source (Podcast.files m)
         = map path_str (sorted path_leb (Kokoro.ssml_found kw))
      /\ List.length (Podcast.files m)
         = List.length (Kokoro.ssml_found kw))
  /\ (exists m evs,
         EdgeTts.process_ssml_directory ew voice concatenate = Done (m, evs)
         /\ map Podcast.ssml_source (Podcast.files m)
            = map path_str (sorted path_leb (EdgeTts.ssml_found ew))
         /\ List.length (Podcast.files m)
            = List.length (EdgeTts.ssml_found ew)).
Proof.
  split.
  - destruct (@kokoro_stage_files kw concatenate km Hkm Hkf) as (m & evs & Hr & Hf).
    exists m, evs. split; [exact Hr|]. rewrite Hf. split.
    + rewrite map_map. apply map_ext. intros p. apply kokoro_entry_source.
    + rewrite length_map. apply sorted_length.
  - destruct (@edge_stage_files ew voice concatenate em Hem Hef)
      as (m & evs & Hr & Hf).
    exists m, evs. split; [exact Hr|]. rewrite Hf. split.
    + rewrite map_map. apply map_ext. intros p. apply edge_entry_source.
    + rewrite length_map. apply sorted_length.
Qed.

Lemma synthesis_processes_files_found_witness :
  (exists m evs,
      Kokoro.process_ssml_directory Runs.kokoro_after_seven true
      = Done (m, evs)
      /\ map Podcast.ssml_source (Podcast.files m)
         = map path_str (sorted path_leb Runs.seven_ssml)
      /\ List.length (Podcast.files m) = 7)
  /\ (exists m evs,
         EdgeTts.process_ssml_directory Runs.edge_after_seven
           EdgeTts.DEFAULT_VOICE true = Done (m, evs)
         /\ map Podcast.ssml_source (Podcast.files m)
            = map path_str (sorted path_leb Runs.seven_ssml)
         /\ List.length (Podcast.files m) = 7).
Proof.
  apply (@synthesis_processes_files_found Runs.kokoro_after_seven
           Runs.edge_after_seven EdgeTts.DEFAULT_VOICE true
           Runs.seven_manifest Runs.seven_manifest);
    solve [reflexivity | discriminate].
Defined.

(** C1 fails after a conversion run with five successes and two failures
    when the SSML files of the two failed items are still there from an
    earlier run: the synthesis manifest has seven entries, and n6.ssml, whose
    item the conversion manifest records as failed, is processed. *)
Lemma synthesis_ignores_conversion_manifest :
  count_status "success" (Convert.files Runs.seven_manifest) = 5
  /\ count_status "conversion_failed" (Convert.files Runs.seven_manifest) = 2
  /\ List.length (Convert.files Runs.seven_manifest) = 7
  /\ exists m evs,
       Kokoro.process_ssml_directory Runs.kokoro_after_seven true
       = Done (m, evs)
       /\ List.length (Podcast.files m) = 7
       /\ In (lit "models/n6.ssml")
            (map Podcast.ssml_source (Podcast.files m))
       /\ ~ In (lit "models/n6.ssml")
              (recorded_successes Runs.seven_manifest).
Proof.
  repeat split; try reflexivity.
  do 2 eexists. split; [reflexivity|]. split; [reflexivity|]. split.
  - vm_compute. tauto.
  - vm_compute. intros H.
    repeat (destruct H as [H|H]; [discriminate H|]). exact H.
Qed.

(** C4, as the code has it: for an SSML file that is read, the edge-tts
    script hands the file's content to its backend unchanged, the Kokoro
    script hands over the stripped text (and nothing when that is empty),
    so the two backends receive the same text exactly when stripping
    leaves the content as it is. *)
Theorem backend_input_of_each_script (kw : Kokoro.world)
    (ew : EdgeTts.world) (f out_wav out_mp3 : path) (voice content : str)
    (Hk : Kokoro.read_ssml kw f = ReadOk content)
    (He : EdgeTts.read_ssml ew f = ReadOk content) :
  let kokoro :=
    backend_texts (snd (Kokoro.convert_ssml_to_audio_kokoro kw f out_wav)) in
  let edge :=
    backend_texts (snd (EdgeTts.convert_ssml_to_audio ew f out_mp3 voice)) in
  edge = [content]
  /\ kokoro = match Kokoro.strip_ssml_tags content with
              | [] => []
              | text => [text]
              end
  /\ (kokoro = edge
      <-> Kokoro.strip_ssml_tags content = content /\ content <> []).
Proof.
  intros kokoro edge.
  assert (Hedge : edge = [content]).
  { unfold edge, EdgeTts.convert_ssml_to_audio. rewrite He.
    destruct (EdgeTts.edge_tts ew voice content out_mp3) as [[|n]| |];
      reflexivity. }
  assert (Hkok : kokoro = match Kokoro.strip_ssml_tags content with
                          | [] => []
                          | text => [text]
                          end).
  { unfold kokoro, Kokoro.convert_ssml_to_audio_kokoro. rewrite Hk.
    destruct (Kokoro.strip_ssml_tags content) as [|c t]; [reflexivity|].
    destruct (Kokoro.hf_inference kw (c :: t)) as [code data|];
      [destruct (code =? 200)|]; reflexivity. }
  split; [exact Hedge|]. split; [exact Hkok|].
  rewrite Hedge, Hkok.
  destruct (Kokoro.strip_ssml_tags content) as [|c t].
  - split; [discriminate|]. intros [<- H]. now elim H.
  - split.
    + intros [= <-]. split; [reflexivity | discriminate].
    + intros [<- _]. reflexivity.
Qed.

Lemma backend_input_of_each_script_witness :
  backend_texts
    (snd (EdgeTts.convert_ssml_to_audio (Runs.edge_one "plain words")
            (Runs.md "n1.ssml") (Runs.md "n1.mp3") EdgeTts.DEFAULT_VOICE))
  = [lit "plain words"]
  /\ backend_texts
       (snd (Kokoro.convert_ssml_to_audio_kokoro
               (Runs.kokoro_one "plain words")
               (Runs.md "n1.ssml") (Runs.md "n1.wav")))
     = [lit "plain words"].
Proof.
  destruct (@backend_input_of_each_script (Runs.kokoro_one "plain words")
              (Runs.edge_one "plain words") (Runs.md "n1.ssml")
              (Runs.md "n1.wav") (Runs.md "n1.mp3") EdgeTts.DEFAULT_VOICE
              (lit "plain words") eq_refl eq_refl) as (He & Hk & _).
  split; [exact He | exact Hk].
Defined.

(** C4 fails on the content <speak>Hi</speak>: the Kokoro backend is sent
    Hi and the edge-tts backend is sent the markup itself. *)
Lemma backends_receive_different_text :
  backend_texts
    (snd (Kokoro.convert_ssml_to_audio_kokoro
            (Runs.kokoro_one "<speak>Hi</speak>")
            (Runs.md "n1.ssml") (Runs.md "n1.wav")))
  = [lit "Hi"]
  /\ backend_texts
       (snd (EdgeTts.convert_ssml_to_audio
               (Runs.edge_one "<speak>Hi</speak>")
               (Runs.md "n1.ssml") (Runs.md "n1.mp3") EdgeTts.DEFAULT_VOICE))
     = [lit "<speak>Hi</speak>"]
  /\ lit "Hi" <> lit "<speak>Hi</speak>".
Proof.
  split; [reflexivity|]. split; [reflexivity|]. discriminate.
Qed.



(** ** Titles *)

Lemma replace_from_cons (old new : str) (c : ascii) (s : str) :
  replace_from old new 0 (c :: s)
  = if starts_with old (c :: s)
    then new ++ replace_from old new (List.length old - 1) s
    else c :: replace_from old new 0 s.
Proof. reflexivity. Qed.

Lemma starts_with_cons (a c : ascii) (p s : str) :
  starts_with (a :: p) (c :: s) = eqc a c && starts_with p s.
Proof. unfold starts_with. simpl. now destruct (eqc a c). Qed.

Lemma starts_with_nil (s : str) : starts_with [] s = true.
Proof. now destruct s. Qed.

Lemma replace_hyphens (s : str) :
  replace (lit "-") (lit " ") s = map TitleSpec.hyphen_to_space s.
Proof.
  unfold replace.
  change (lit "-") with ["-"%char]. change (lit " ") with [" "%char].
  induction s as [|c s IH]; [reflexivity|].
  rewrite replace_from_cons, starts_with_cons, starts_with_nil, andb_true_r.
  cbn [map List.length Nat.sub app]. unfold TitleSpec.hyphen_to_space at 1.
  rewrite IH. now destruct (eqc "-" c).
Qed.

Lemma no_early_md (c : ascii) (s : str) :
  starts_with (lit ".md") (c :: s) = false ->
  starts_with (lit ".md") ((c :: s) ++ lit ".md") = false.
Proof.
  change (lit ".md") with ["."%char; "m"%char; "d"%char].
  cbn [app]. rewrite !starts_with_cons.
  destruct (eqc "." c); [|reflexivity]. cbn [andb].
  destruct s as [|a [|b s]]; cbn [app].
  - reflexivity.
  - rewrite !starts_with_cons. destruct (eqc "m" a); reflexivity.
  - rewrite !starts_with_cons, !starts_with_nil. intros H. exact H.
Qed.

Lemma replace_md_suffix (s : str) :
  contains (lit ".md") s = false ->
  replace (lit ".md") [] (s ++ lit ".md") = s.
Proof.
  unfold replace.
  induction s as [|c s IH]; intros H.
  - reflexivity.
  - cbn [contains] in H. apply orb_false_iff in H.
    destruct H as [Hhere Hrest].
    cbn [app]. rewrite replace_from_cons.
    change (c :: s ++ lit ".md") with ((c :: s) ++ lit ".md").
    rewrite (no_early_md _ _ Hhere). now rewrite (IH Hrest).
Qed.

(** C5, as the code has it: for a file name [base].md whose base holds no
    further ".md", the title is the base with every hyphen replaced by a
    space, split on whitespace, each token with its first character
    upper-cased and the others lower-cased, rejoined with single spaces. *)
Theorem clean_title_of_md_file (base : str)
    (Hbase : contains (lit ".md") base = false) :
  BuildBook.clean_title (base ++ lit ".md")
  = join (lit " ")
      (map capitalize (split (map TitleSpec.hyphen_to_space base))).
Proof.
  unfold BuildBook.clean_title.
  now rewrite (replace_md_suffix _ Hbase), replace_hyphens.
Qed.

Lemma clean_title_of_md_file_witness :
  contains (lit ".md") (lit "fine-tuning-basics") = false
  /\ BuildBook.clean_title (lit "fine-tuning-basics.md")
     = lit "Fine Tuning Basics".
Proof.
  split; [reflexivity|].
  exact (@clean_title_of_md_file (lit "fine-tuning-basics") eq_refl).
Defined.

(** C5 fails on ASR-basics.md, where the code lower-cases what follows the
    first letter of a token, and on notes.md-old.md, where the code removes
    both occurrences of ".md". *)
Lemma clean_title_not_the_worded_title :
  BuildBook.clean_title (lit "ASR-basics.md") = lit "Asr Basics"
  /\ TitleSpec.derived_title (lit "ASR-basics.md") = lit "ASR Basics"
  /\ BuildBook.clean_title (lit "ASR-basics.md")
     <> TitleSpec.derived_title (lit "ASR-basics.md")
  /\ BuildBook.clean_title (lit "notes.md-old.md") = lit "Notes Old"
  /\ TitleSpec.derived_title (lit "notes.md-old.md") = lit "Notes.md Old".
Proof.
  repeat split; try reflexivity. vm_compute. discriminate.
Qed.

(** ** Markup stripping *)

Lemma sub_from_cons (pat : Re.pattern) (repl : str) (prev : option ascii)
    (c : ascii) (s : str) :
  Re.sub_from pat repl 0 prev (c :: s)
  = match Re.match_here pat prev (c :: s) with
    | Some (S n) => repl ++ Re.sub_from pat repl n (Some c) s
    | _ => c :: Re.sub_from pat repl 0 (Some c) s
    end.
Proof. reflexivity. Qed.

(** A pattern that opens with a literal character finds nothing in a text
    without that character. *)
Lemma sub_without_opener (a : ascii) (p : Re.pattern) (repl s : str) :
  has_char a s = false ->
  Re.sub (Re.Atom (Re.Chr a) Re.One :: p) repl s = s.
Proof.
  unfold Re.sub. generalize (@None ascii).
  induction s as [|c s IH]; intros prev H; [reflexivity|].
  cbn [has_char existsb] in H. apply orb_false_iff in H.
  destruct H as [Hc Hs].
  rewrite sub_from_cons. cbn [Re.match_here Re.test]. rewrite Hc.
  f_equal. now apply IH.
Qed.

Lemma untagged_plain (s : str) : has_char "<" s = false -> untagged s = s.
Proof.
  intros H. unfold untagged.
  repeat (match goal with
          | |- context [Re.sub ?p ?r s] =>
              change (Re.sub p r s)
                with (Re.sub (Re.Atom (Re.Chr "<") Re.One :: tl p) r s);
              rewrite (@sub_without_opener _ _ r s H)
          end).
  reflexivity.
Qed.

(** [\s+] at the head of a text takes the whole run of blanks. *)
Lemma greedy_blanks (prev : option ascii) (s : str) :
  Re.greedy is_space (Re.match_here []) prev s = Some (run s).
Proof.
  revert prev. induction s as [|c s IH]; intros prev; [reflexivity|].
  cbn [Re.greedy run]. destruct (is_space c); [|reflexivity].
  now rewrite IH.
Qed.

Lemma match_blanks (prev : option ascii) (c : ascii) (s : str) :
  Re.match_here Kokoro.blanks prev (c :: s)
  = if is_space c then Some (S (run s)) else None.
Proof.
  unfold Kokoro.blanks. cbn [Re.match_here Re.test].
  destruct (is_space c); [|reflexivity]. now rewrite greedy_blanks.
Qed.

Lemma sub_from_skip (pat : Re.pattern) (repl : str) (k : nat)
    (prev : option ascii) (c : ascii) (s : str) :
  Re.sub_from pat repl (S k) prev (c :: s)
  = Re.sub_from pat repl k (Some c) s.
Proof. reflexivity. Qed.

Lemma sub_blanks_from (s : str) :
  (forall prev,
      Re.sub_from Kokoro.blanks (lit " ") (run s) prev s = collapse true s)
  /\ (forall prev,
         Re.sub_from Kokoro.blanks (lit " ") 0 prev s = collapse false s).
Proof.
  induction s as [|c s [IHrun IHzero]]; [split; reflexivity|].
  assert (Hzero : forall prev,
             Re.sub_from Kokoro.blanks (lit " ") 0 prev (c :: s)
             = collapse false (c :: s)).
  { intros prev. rewrite sub_from_cons, match_blanks. cbn [collapse].
    destruct (is_space c).
    - now rewrite IHrun.
    - now rewrite IHzero. }
  split; [|exact Hzero].
  intros prev. cbn [run]. destruct (is_space c) eqn:E.
  - rewrite sub_from_skip, IHrun. cbn [collapse]. now rewrite E.
  - rewrite Hzero. cbn [collapse]. now rewrite E.
Qed.

Lemma sub_blanks (s : str) :
  Re.sub Kokoro.blanks (lit " ") s = collapse false s.
Proof. apply sub_blanks_from. Qed.

Lemma strip_ssml_tags_unfold (s : str) :
  Kokoro.strip_ssml_tags s = strip (collapse false (untagged s)).
Proof. unfold Kokoro.strip_ssml_tags, untagged. now rewrite sub_blanks. Qed.

(** *** Collapsed text *)

Lemma normal_weaken (s : str) : normal_from true s -> normal_from false s.
Proof.
  destruct s as [|c s]; [trivial|]. cbn [normal_from].
  destruct (is_space c); [|trivial]. intros (_ & H & _). discriminate H.
Qed.

Lemma collapse_normal (b : bool) (s : str) : normal_from b (collapse b s).
Proof.
  revert b. induction s as [|c s IH]; intros b; [exact I|].
  cbn [collapse]. destruct (is_space c) eqn:E.
  - destruct b; [apply IH|].
    cbn [normal_from]. replace (is_space " ") with true by reflexivity.
    repeat split. apply IH.
  - cbn [normal_from]. rewrite E. apply IH.
Qed.

Lemma collapse_of_normal (b : bool) (s : str) :
  normal_from b s -> collapse b s = s.
Proof.
  revert b. induction s as [|c s IH]; intros b H; [reflexivity|].
  cbn [normal_from] in H. cbn [collapse].
  destruct (is_space c).
  - destruct H as (-> & -> & H). now rewrite (IH _ H).
  - now rewrite (IH _ H).
Qed.

Lemma lstrip_normal (s : str) :
  normal_from false s -> normal_from false (lstrip s).
Proof.
  induction s as [|c s IH]; intros H; [exact I|].
  cbn [lstrip]. destruct (is_space c) eqn:E; [|exact H].
  cbn [normal_from] in H. rewrite E in H. destruct H as (_ & _ & H).
  apply IH, normal_weaken, H.
Qed.

(** *** [strip] *)

Lemma lstrip_snoc (s : str) (c : ascii) :
  lstrip (s ++ [c])
  = match lstrip s with
    | [] => lstrip [c]
    | l => l ++ [c]
    end.
Proof.
  induction s as [|a s IH]; [reflexivity|].
  cbn [app lstrip]. destruct (is_space a); [exact IH | reflexivity].
Qed.

Lemma rstrip_cons (c : ascii) (s : str) :
  rstrip (c :: s)
  = match rstrip s with
    | [] => if is_space c then [] else [c]
    | r => c :: r
    end.
Proof.
  unfold rstrip. cbn [rev]. rewrite lstrip_snoc.
  destruct (lstrip (rev s)) as [|a l].
  - cbn [lstrip rev]. now destruct (is_space c).
  - rewrite rev_app_distr. cbn [rev app].
    destruct (rev l ++ [a]) eqn:E; [|reflexivity].
    now apply app_eq_nil in E.
Qed.

Lemma rstrip_normal (s : str) :
  forall b, normal_from b s -> normal_from b (rstrip s).
Proof.
  induction s as [|c s IH]; intros b H; [exact I|].
  rewrite rstrip_cons. cbn [normal_from] in H.
  destruct (rstrip s) as [|a r] eqn:E.
  - destruct (is_space c) eqn:Ec; [exact I|].
    cbn [normal_from]. now rewrite Ec.
  - cbn [normal_from]. destruct (is_space c).
    + destruct H as (Hc & Hb & H). repeat split; try assumption.
      apply (IH true H).
    + apply (IH false H).
Qed.

Lemma strip_normal (s : str) :
  normal_from false s -> normal_from false (strip s).
Proof. intros H. apply rstrip_normal, lstrip_normal, H. Qed.

Lemma lstrip_headed (s : str) :
  match lstrip s with c :: _ => is_space c = false | [] => True end.
Proof.
  induction s as [|c s IH]; [exact I|]. cbn [lstrip].
  destruct (is_space c) eqn:E; [exact IH | exact E].
Qed.

Lemma lstrip_of_headed (s : str) :
  match s with c :: _ => is_space c = false | [] => True end ->
  lstrip s = s.
Proof. destruct s as [|c s]; [reflexivity|]. cbn [lstrip]. now intros ->. Qed.

Lemma rstrip_headed (s : str) :
  match s with c :: _ => is_space c = false | [] => True end ->
  match rstrip s with c :: _ => is_space c = false | [] => True end.
Proof.
  destruct s as [|c s]; [trivial|]. intros H. rewrite rstrip_cons.
  destruct (rstrip s); [rewrite H|]; exact H.
Qed.

Lemma lstrip_idem (s : str) : lstrip (lstrip s) = lstrip s.
Proof. apply lstrip_of_headed, lstrip_headed. Qed.

Lemma strip_idem (s : str) : strip (strip s) = strip s.
Proof.
  unfold strip.
  rewrite (lstrip_of_headed (rstrip (lstrip s)))
    by apply rstrip_headed, lstrip_headed.
  unfold rstrip. now rewrite rev_involutive, lstrip_idem.
Qed.

(** Text that is collapsed and stripped and holds no "<" is left as it is
    by [strip_ssml_tags]. *)
Lemma strip_ssml_tags_fixes_plain (u : str) :
  normal_from false u -> strip u = u -> has_char "<" u = false ->
  Kokoro.strip_ssml_tags u = u.
Proof.
  intros Hn Hs Hlt.
  now rewrite strip_ssml_tags_unfold, (untagged_plain _ Hlt),
    (collapse_of_normal _ _ Hn).
Qed.



Lemma has_char_collapse (a : ascii) (b : bool) (s : str) :
  is_space a = false -> has_char a s = false ->
  has_char a (collapse b s) = false.
Proof.
  intros Ha. revert b. unfold has_char.
  induction s as [|c s IH]; intros b H; [reflexivity|].
  cbn [existsb] in H. apply orb_false_iff in H. destruct H as [Hc Hs].
  cbn [collapse]. destruct (is_space c).
  - destruct b; [now apply IH|]. cbn [existsb]. rewrite (IH _ Hs).
    destruct (eqc a " ") eqn:E; [|reflexivity].
    apply Ascii.eqb_eq in E. subst a. discriminate Ha.
  - cbn [existsb]. now rewrite Hc, (IH _ Hs).
Qed.

Lemma has_char_lstrip (a : ascii) (s : str) :
  has_char a s = false -> has_char a (lstrip s) = false.
Proof.
  unfold has_char. induction s as [|c s IH]; intros H; [reflexivity|].
  cbn [lstrip]. destruct (is_space c); [|exact H].
  cbn [existsb] in H. apply orb_false_iff in H. now apply IH.
Qed.

Lemma has_char_rev (a : ascii) (s : str) :
  has_char a (rev s) = has_char a s.
Proof.
  unfold has_char. induction s as [|c s IH]; [reflexivity|].
  cbn [rev existsb]. rewrite existsb_app, IH. cbn [existsb].
  rewrite orb_false_r. apply orb_comm.
Qed.

Lemma has_char_strip (a : ascii) (s : str) :
  has_char a s = false -> has_char a (strip s) = false.
Proof.
  intros H. unfold strip, rstrip.
  rewrite has_char_rev. apply has_char_lstrip.
  rewrite has_char_rev. now apply has_char_lstrip.
Qed.

(** On text without "<" the transform only collapses the blanks and
    strips, and its output has no "<" either. *)
Lemma strip_ssml_tags_plain_input (s : str) :
  has_char "<" s = false ->
  Kokoro.strip_ssml_tags s = strip (collapse false s)
  /\ has_char "<" (Kokoro.strip_ssml_tags s) = false.
Proof.
  intros H. rewrite strip_ssml_tags_unfold, (untagged_plain _ H).
  split; [reflexivity|].
  apply has_char_strip, has_char_collapse; [reflexivity | exact H].
Qed.


(** ** The book, part by part *)

Lemma add_chapter_app (w : BuildBook.world) (parts : list str) (f : path) :
  BuildBook.add_chapter w parts f = parts ++ BookSpec.chapter w f.
Proof.
  unfold BuildBook.add_chapter, BookSpec.chapter, BookSpec.chapter_block.
  now rewrite <- !app_assoc.
Qed.

Lemma fold_chapters (w : BuildBook.world) (fs : list path) :
  forall parts,
    fold_left (BuildBook.add_chapter w) fs parts
    = parts ++ flat_map (BookSpec.chapter w) fs.
Proof.
  induction fs as [|f fs IH]; intros parts; cbn [fold_left flat_map].
  - now rewrite app_nil_r.
  - now rewrite IH, add_chapter_app, <- app_assoc.
Qed.

Lemma add_topic_app (w : BuildBook.world) (organized_files : BuildBook.dict)
    (parts : list str) (t : BuildBook.topic) :
  BuildBook.add_topic w organized_files parts t
  = parts ++ (if BuildBook.truthy organized_files (BuildBook.key t)
              then BookSpec.section w organized_files t
              else []).
Proof.
  unfold BuildBook.add_topic, BookSpec.section, BookSpec.topic_header.
  destruct (BuildBook.truthy organized_files (BuildBook.key t));
    cbn [negb].
  - rewrite fold_chapters. now rewrite <- !app_assoc.
  - now rewrite app_nil_r.
Qed.

Lemma fold_topics (w : BuildBook.world) (organized_files : BuildBook.dict)
    (ts : list BuildBook.topic) :
  forall parts,
    fold_left (BuildBook.add_topic w organized_files) ts parts
    = parts
      ++ flat_map (BookSpec.section w organized_files)
           (filter
              (fun t => BuildBook.truthy organized_files (BuildBook.key t))
              ts).
Proof.
  induction ts as [|t ts IH]; intros parts; cbn [fold_left filter].
  - now rewrite app_nil_r.
  - rewrite IH, add_topic_app.
    destruct (BuildBook.truthy organized_files (BuildBook.key t));
      cbn [flat_map]; now rewrite <- app_assoc.
Qed.

(** The parts of the book: the table of contents, then the section of each
    shown topic, in the order of [TOPIC_ORDER]. *)
Lemma master_parts_sections (w : BuildBook.world)
    (organized_files : BuildBook.dict) :
  BuildBook.master_parts w organized_files
  = BuildBook.generate_toc organized_files
    :: flat_map (BookSpec.section w organized_files)
         (BookSpec.shown organized_files).
Proof. unfold BuildBook.master_parts. now rewrite fold_topics. Qed.

Lemma fold_toc (organized_files : BuildBook.dict)
    (ts : list BuildBook.topic) :
  forall toc,
    fold_left
      (fun toc topic_info =>
         if BuildBook.truthy organized_files (BuildBook.key topic_info)
         then
           let chapter_count :=
             List.length
               (BuildBook.files_of organized_files
                  (BuildBook.key topic_info)) in
           toc ++ [lit "**" ++ BuildBook.title topic_info ++ lit "**  "]
               ++ [BuildBook.description topic_info ++ lit " ("
                     ++ BuildBook.decimal chapter_count ++ lit " chapters)"]
               ++ [[]]
         else toc)
      ts toc
    = toc
      ++ flat_map (BookSpec.toc_entry organized_files)
           (filter
              (fun t => BuildBook.truthy organized_files (BuildBook.key t))
              ts).
Proof.
  induction ts as [|t ts IH]; intros toc; cbn [fold_left filter].
  - now rewrite app_nil_r.
  - rewrite IH.
    destruct (BuildBook.truthy organized_files (BuildBook.key t));
      [|reflexivity].
    cbn [flat_map]. unfold BookSpec.toc_entry.
    now rewrite <- !app_assoc.
Qed.

Lemma toc_lines_entries (organized_files : BuildBook.dict) :
  BuildBook.toc_lines organized_files
  = BookSpec.toc_head
    ++ flat_map (BookSpec.toc_entry organized_files)
         (BookSpec.shown organized_files)
    ++ [lit "---"; []].
Proof.
  unfold BuildBook.toc_lines. rewrite fold_toc.
  now rewrite <- app_assoc.
Qed.



(** ** Headings and placeholders *)

(** Past the first character of a text without newline, [^] holds
    nowhere. *)
Lemma sub_top_header_inside_line (s : str) :
  forall c,
    eqc nl c = false -> has_char nl s = false ->
    Re.sub_from BuildBook.top_header [] 0 (Some c) s = s.
Proof.
  induction s as [|a s IH]; intros c Hc Hs; [reflexivity|].
  cbn [has_char existsb] in Hs. apply orb_false_iff in Hs.
  destruct Hs as [Ha Hs].
  rewrite sub_from_cons. unfold BuildBook.top_header at 1.
  cbn [Re.match_here Re.at_bol]. rewrite Hc.
  f_equal. now apply IH.
Qed.

Lemma sub_top_header_one_line (c : ascii) (s : str) :
  eqc "#" c = false -> has_char nl (c :: s) = false ->
  Re.sub BuildBook.top_header [] (c :: s) = c :: s.
Proof.
  intros Hc Hs. cbn [has_char existsb] in Hs. apply orb_false_iff in Hs.
  destruct Hs as [Hn Hs].
  unfold Re.sub. rewrite sub_from_cons. unfold BuildBook.top_header at 1.
  cbn [Re.match_here Re.at_bol Re.test]. rewrite Hc.
  f_equal. now apply sub_top_header_inside_line.
Qed.

Lemma has_char_app (a : ascii) (s t : str) :
  has_char a (s ++ t) = has_char a s || has_char a t.
Proof. apply existsb_app. Qed.

Lemma placeholder_kept (f : path) (e : str) :
  has_char nl (path_str f) = false -> has_char nl e = false ->
  Re.sub BuildBook.top_header [] (BookSpec.placeholder f e)
  = BookSpec.placeholder f e.
Proof.
  intros Hf He. unfold BookSpec.placeholder.
  change (lit "<!-- Error reading " ++ path_str f ++ lit ": " ++ e
            ++ lit " -->")
    with ("<"%char :: lit "!-- Error reading " ++ path_str f ++ lit ": "
            ++ e ++ lit " -->").
  apply sub_top_header_one_line; [reflexivity|].
  change ("<"%char :: lit "!-- Error reading " ++ path_str f ++ lit ": "
            ++ e ++ lit " -->")
    with (lit "<!-- Error reading " ++ path_str f ++ lit ": " ++ e
            ++ lit " -->").
  rewrite !has_char_app, Hf, He. reflexivity.
Qed.

Lemma chapter_of_unreadable (w : BuildBook.world) (f : path) (e : str) :
  BuildBook.read_file w f = ReadErr e ->
  has_char nl (path_str f) = false -> has_char nl e = false ->
  BookSpec.chapter w f
  = BookSpec.chapter_block f (BookSpec.placeholder f e).
Proof.
  intros Hr Hf He. unfold BookSpec.chapter, BuildBook.read_file_content.
  rewrite Hr. fold (BookSpec.placeholder f e).
  now rewrite placeholder_kept.
Qed.

Lemma files_of_truthy (organized_files : BuildBook.dict) (k : str)
    (f : path) (before after : list path) :
  BuildBook.files_of organized_files k = before ++ f :: after ->
  BuildBook.truthy organized_files k = true.
Proof.
  unfold BuildBook.files_of, BuildBook.truthy.
  destruct (BuildBook.dict_get organized_files k) as [[|g gs]|];
    intros H; try reflexivity; now destruct before.
Qed.

(** A source file that cannot be read does not stop the aggregation: when
    its path and the error message hold no line break, the document has, at
    the place of its chapter, the comment-style placeholder with the error
    message, and everything that follows it, the later chapters of its
    topic and the later topics, is in the document as before. *)
Theorem unreadable_file_leaves_placeholder (w : BuildBook.world)
    (organized_files : BuildBook.dict)
    (earlier later : list BuildBook.topic) (t : BuildBook.topic)
    (before after : list path) (f : path) (e : str)
    (Htopic : BuildBook.TOPIC_ORDER = earlier ++ t :: later)
    (Hfiles : BuildBook.files_of organized_files (BuildBook.key t)
              = before ++ f :: after)
    (Hread : BuildBook.read_file w f = ReadErr e)
    (Hpath : has_char nl (path_str f) = false)
    (Hmsg : has_char nl e = false) :
  BuildBook.build_master_document w organized_files
  = join [nl]
      ((BuildBook.generate_toc organized_files
        :: flat_map (BookSpec.section w organized_files)
             (filter
                (fun t =>
                   BuildBook.truthy organized_files (BuildBook.key t))
                earlier))
       ++ BookSpec.topic_header t
       ++ flat_map (BookSpec.chapter w) before
       ++ BookSpec.chapter_block f (BookSpec.placeholder f e)
       ++ flat_map (BookSpec.chapter w) after
       ++ flat_map (BookSpec.section w organized_files)
            (filter
               (fun t =>
                  BuildBook.truthy organized_files (BuildBook.key t))
               later)).
Proof.
  unfold BuildBook.build_master_document. f_equal.
  rewrite master_parts_sections. unfold BookSpec.shown.
  rewrite Htopic, filter_app. cbn [filter].
  rewrite (@files_of_truthy _ _ _ _ _ Hfiles).
  rewrite flat_map_app. cbn [flat_map app]. f_equal. f_equal.
  unfold BookSpec.section at 1. rewrite Hfiles, flat_map_app.
  cbn [flat_map]. rewrite (@chapter_of_unreadable _ _ _ Hread Hpath Hmsg).
  now rewrite <- !app_assoc.
Qed.

Lemma unreadable_file_leaves_placeholder_witness :
  contains
    (lit "<!-- Error reading ../notebook/models/b-second.md: "
       ++ lit "[Errno 13] Permission denied -->")
    (BuildBook.build_master_document Runs.second_unreadable
       Runs.three_notes) = true
  /\ contains (lit "## C Third")
       (BuildBook.build_master_document Runs.second_unreadable
          Runs.three_notes) = true.
Proof.
  rewrite (@unreadable_file_leaves_placeholder Runs.second_unreadable
             Runs.three_notes
             (firstn 1 BuildBook.TOPIC_ORDER) (skipn 2 BuildBook.TOPIC_ORDER)
             (BuildBook.mk "models" "Part II: ASR Models"
                "Overview and comparison of ASR models")
             [Runs.note "a-first.md"] [Runs.note "c-third.md"]
             (Runs.note "b-second.md") (lit "[Errno 13] Permission denied")
             eq_refl eq_refl eq_refl eq_refl eq_refl).
  split; vm_compute; reflexivity.
Defined.

(** C8 does not hold of the code on a catalog with an unreadable file whose
    name holds a line break followed by "# ": the heading pattern is applied
    to the placeholder as to any chapter text, and cuts it at the second
    line of the path, so that neither the error message nor the end of the
    comment reaches the document. *)
Theorem placeholder_cut_at_line_break :
  let f := BuildBook.notebook_dir ++ [lit "models"; broken_name] in
  let organized := BuildBook.collect_files newline_notebook in
  let document :=
    BuildBook.build_master_document newline_notebook organized in
  BuildBook.files_of organized (lit "models")
  = [f; BuildBook.notebook_dir ++ [lit "models"; lit "z-last.md"]]
  /\ BuildBook.read_file newline_notebook f = ReadErr broken_name_error
  /\ BuildBook.read_file_content newline_notebook f
     = BookSpec.placeholder f broken_name_error
  /\ Re.sub BuildBook.top_header []
       (BuildBook.read_file_content newline_notebook f)
     = lit "<!-- Error reading ../notebook/models/a" ++ [nl]
  /\ contains (lit "<!-- Error reading") document = true
  /\ contains (lit "Permission denied") document = false
  /\ contains (lit "-->") document = false.
Proof. cbv zeta. repeat split; vm_compute; reflexivity. Qed.

(** C7 does not hold of the code on a note that opens with an empty
    top-level heading: [\s+] runs over the line break, so the second-level
    heading on the next line is removed with it. *)
Theorem empty_heading_swallows_next_line :
  Re.sub BuildBook.top_header [] Runs.empty_heading_note = nl :: lit "text"
  /\ BuildBook.add_chapter Runs.empty_heading_world []
       (Runs.note "notes.md")
     = [[]; lit "## Notes"; []; nl :: lit "text"; []].
Proof. split; reflexivity. Qed.

(** ** The order of names and paths *)

Lemma eqc_eq (a b : ascii) : eqc a b = true <-> a = b.
Proof. apply Ascii.eqb_eq. Qed.

Lemma eqc_refl (a : ascii) : eqc a a = true.
Proof. now apply eqc_eq. Qed.

Lemma char_ltb_irrefl (a : ascii) : char_ltb a a = false.
Proof. apply Nat.ltb_irrefl. Qed.

Lemma char_trichotomy (a b : ascii) :
  char_ltb a b = false -> eqc a b = false -> char_ltb b a = true.
Proof.
  unfold char_ltb. intros Hlt Hne.
  apply Nat.ltb_ge in Hlt. apply Nat.ltb_lt.
  destruct (Nat.eq_dec (nat_of_ascii a) (nat_of_ascii b)) as [E|E]; [|lia].
  apply (f_equal ascii_of_nat) in E. rewrite !ascii_nat_embedding in E.
  subst b. now rewrite eqc_refl in Hne.
Qed.

Lemma char_ltb_trans (a b c : ascii) :
  char_ltb a b = true -> char_ltb b c = true -> char_ltb a c = true.
Proof.
  unfold char_ltb. rewrite !Nat.ltb_lt. lia.
Qed.

Lemma str_eqb_eq (x y : str) : str_eqb x y = true <-> x = y.
Proof.
  revert y. induction x as [|a x IH]; intros [|b y]; cbn [str_eqb];
    try (split; [discriminate | discriminate]); [tauto|].
  rewrite andb_true_iff, eqc_eq, IH. split.
  - now intros [-> ->].
  - now intros [= -> ->].
Qed.

Lemma str_eqb_refl (x : str) : str_eqb x x = true.
Proof. now apply str_eqb_eq. Qed.

Lemma str_leb_refl (x : str) : str_leb x x = true.
Proof.
  induction x as [|a x IH]; [reflexivity|]. cbn [str_leb].
  now rewrite char_ltb_irrefl, eqc_refl.
Qed.

Lemma str_leb_total (x y : str) : str_leb x y = true \/ str_leb y x = true.
Proof.
  revert y. induction x as [|a x IH]; intros [|b y]; cbn [str_leb]; auto.
  destruct (char_ltb a b) eqn:Hab; [now left|].
  destruct (eqc a b) eqn:Eab.
  - apply eqc_eq in Eab. subst b. rewrite Hab, eqc_refl. apply IH.
  - right. now rewrite (char_trichotomy _ _ Hab Eab).
Qed.

Lemma str_leb_trans (x y z : str) :
  str_leb x y = true -> str_leb y z = true -> str_leb x z = true.
Proof.
  revert y z. induction x as [|a x IH]; intros [|b y] [|c z];
    cbn [str_leb]; try discriminate; try reflexivity.
  destruct (char_ltb a b) eqn:Hab.
  - intros _. destruct (char_ltb b c) eqn:Hbc.
    + intros _. now rewrite (char_ltb_trans _ _ _ Hab Hbc).
    + destruct (eqc b c) eqn:Ebc; [|discriminate].
      apply eqc_eq in Ebc. subst c. now rewrite Hab.
  - destruct (eqc a b) eqn:Eab; [|discriminate].
    apply eqc_eq in Eab. subst b. intros Hxy.
    destruct (char_ltb a c); [reflexivity|].
    destruct (eqc a c); [|discriminate]. now apply IH.
Qed.

Lemma str_ltb_irrefl (x : str) : str_ltb x x = false.
Proof. unfold str_ltb. now rewrite str_eqb_refl, andb_false_r. Qed.

(** Paths in one directory are ordered by their names. *)
Lemma path_leb_same_parent (dir : path) (a b : str) :
  path_leb (dir ++ [a]) (dir ++ [b]) = str_leb a b.
Proof.
  induction dir as [|d dir IH]; cbn [app path_leb].
  - unfold str_ltb. destruct (str_leb a b) eqn:Hab; cbn [andb negb].
    + now destruct (str_eqb a b).
    + destruct (str_eqb a b) eqn:E; [|reflexivity].
      apply str_eqb_eq in E. subst b. now rewrite str_leb_refl in Hab.
  - now rewrite str_ltb_irrefl, str_eqb_refl.
Qed.

(** ** Collecting the files *)

Lemma dict_get_set (d : BuildBook.dict) (k k' : str) (v : list path) :
  BuildBook.dict_get (BuildBook.dict_set d k v) k'
  = if str_eqb k k' then Some v else BuildBook.dict_get d k'.
Proof.
  induction d as [|[k0 v0] d IH]; cbn [BuildBook.dict_set BuildBook.dict_get].
  - reflexivity.
  - destruct (str_eqb k0 k) eqn:E0; cbn [BuildBook.dict_get].
    + apply str_eqb_eq in E0. subst k0. now destruct (str_eqb k k').
    + rewrite IH. destruct (str_eqb k0 k') eqn:E1; [|reflexivity].
      apply str_eqb_eq in E1. subst k'.
      destruct (str_eqb k k0) eqn:E2; [|reflexivity].
      apply str_eqb_eq in E2. subst k0. now rewrite str_eqb_refl in E0.
Qed.

Lemma find_absent (A : Type) (f : A -> bool) (l : list A) :
  (forall x, In x l -> f x = false) -> find f l = None.
Proof.
  induction l as [|a l IH]; intros H; [reflexivity|]. cbn [find].
  rewrite (H a (or_introl eq_refl)). apply IH. intros x Hx.
  apply H. now right.
Qed.

Lemma is_topic_key (t : BuildBook.topic) :
  In t BuildBook.TOPIC_ORDER -> BuildBook.is_topic (BuildBook.key t) = true.
Proof.
  intros H. apply existsb_exists. exists t. split; [exact H|].
  apply str_eqb_refl.
Qed.

Lemma initial_dict_get (ts : list BuildBook.topic) (k : str) :
  existsb (fun t => str_eqb (BuildBook.key t) k) ts = true ->
  BuildBook.dict_get (map (fun t => (BuildBook.key t, @nil path)) ts) k
  = Some [].
Proof.
  induction ts as [|t ts IH]; cbn [existsb map BuildBook.dict_get];
    [discriminate|].
  destruct (str_eqb (BuildBook.key t) k); [reflexivity | exact IH].
Qed.

(** After the loop of [collect_files], a topic holds the sorted files of
    the directory of its name, or what it held before when there is no such
    directory. *)
Lemma collect_fold (k : str) (ds : list BuildBook.dir_entry) :
  BuildBook.is_topic k = true ->
  NoDup (map BuildBook.entry_name ds) ->
  forall organized,
    BuildBook.dict_get
      (fold_left
         (fun organized topic_dir =>
            if BuildBook.is_dir topic_dir
               && BuildBook.is_topic (BuildBook.entry_name topic_dir)
            then BuildBook.dict_set organized
                   (BuildBook.entry_name topic_dir)
                   (sorted path_leb (BuildBook.glob_md topic_dir))
            else organized)
         ds organized) k
    = match
        find (fun d => BuildBook.is_dir d
                       && str_eqb (BuildBook.entry_name d) k) ds
      with
      | Some d => Some (sorted path_leb (BuildBook.glob_md d))
      | None => BuildBook.dict_get organized k
      end.
Proof.
  intros Hk. induction ds as [|d ds IH]; intros Hnd organized;
    cbn [fold_left find]; [reflexivity|].
  cbn [map] in Hnd. inversion Hnd as [|n ns Hnotin Hnd']; subst.
  rewrite (IH Hnd').
  destruct (str_eqb (BuildBook.entry_name d) k) eqn:E.
  - apply str_eqb_eq in E. subst k. rewrite Hk, !andb_true_r.
    rewrite find_absent.
    + destruct (BuildBook.is_dir d); [|reflexivity].
      now rewrite dict_get_set, str_eqb_refl.
    + intros x Hx. destruct (str_eqb _ _) eqn:Ex;
        [|now rewrite andb_false_r].
      apply str_eqb_eq in Ex. elim Hnotin. rewrite <- Ex.
      now apply in_map.
  - rewrite andb_false_r.
    destruct (find _ ds); [reflexivity|].
    destruct (BuildBook.is_dir d && BuildBook.is_topic _); [|reflexivity].
    now rewrite dict_get_set, E.
Qed.

Lemma glob_md_sorted (d : BuildBook.dir_entry) :
  sorted path_leb (BuildBook.glob_md d)
  = map (fun n => BuildBook.notebook_dir ++ [BuildBook.entry_name d; n])
      (sorted str_leb (BookSpec.md_names d)).
Proof.
  unfold BuildBook.glob_md. fold (BookSpec.md_names d).
  apply sorted_map. intros a b.
  exact (path_leb_same_parent
           (BuildBook.notebook_dir ++ [BuildBook.entry_name d]) a b).
Qed.

Lemma collect_files_topic (w : BuildBook.world) (t : BuildBook.topic) :
  NoDup (map BuildBook.entry_name (BuildBook.notebook w)) ->
  In t BuildBook.TOPIC_ORDER ->
  BuildBook.files_of (BuildBook.collect_files w) (BuildBook.key t)
  = BookSpec.topic_files w (BuildBook.key t).
Proof.
  intros Hnd Ht. unfold BuildBook.files_of, BuildBook.collect_files.
  rewrite (@collect_fold _ _ (@is_topic_key t Ht) Hnd).
  unfold BookSpec.topic_files.
  destruct (find _ (BuildBook.notebook w)) as [d|] eqn:E.
  - apply find_some in E. destruct E as [_ E].
    apply andb_true_iff in E. destruct E as [_ E].
    apply str_eqb_eq in E. rewrite glob_md_sorted. now rewrite E.
  - now rewrite (@initial_dict_get _ _ (@is_topic_key t Ht)).
Qed.

Lemma name_in_dir (dir : path) (k n : str) : name (dir ++ [k; n]) = n.
Proof.
  unfold name. change (dir ++ [k; n]) with (dir ++ [k] ++ [n]).
  rewrite app_assoc. apply last_last.
Qed.

Lemma topic_files_names (w : BuildBook.world) (k : str) :
  map name (BookSpec.topic_files w k)
  = match
      find (fun d => BuildBook.is_dir d
                     && str_eqb (BuildBook.entry_name d) k)
        (BuildBook.notebook w)
    with
    | Some d => sorted str_leb (BookSpec.md_names d)
    | None => []
    end.
Proof.
  unfold BookSpec.topic_files. destruct (find _ _) as [d|]; [|reflexivity].
  rewrite map_map. rewrite (map_ext _ (fun n => n)); [apply map_id|].
  intros n. apply name_in_dir.
Qed.

Lemma topic_files_by_name (w : BuildBook.world) (k : str) :
  StronglySorted (holds str_leb) (map name (BookSpec.topic_files w k)).
Proof.
  rewrite topic_files_names. destruct (find _ _); [|constructor].
  apply sorted_sorted; [apply str_leb_total | apply str_leb_trans].
Qed.

(** C6: for a notebook directory whose entries have distinct names, the
    document that [build_master_document] returns is the table of contents
    followed by the sections of the topics in the order of the Topic Index,
    line after line; the chapters of a topic are the markdown files of its
    directory in the order of their file names; a topic with no file has
    neither a section in the document nor an entry in the text that
    [generate_toc] returns. *)
Theorem book_in_topic_and_name_order (w : BuildBook.world)
    (Hnames : NoDup (map BuildBook.entry_name (BuildBook.notebook w))) :
  let organized := BuildBook.collect_files w in
  BuildBook.build_master_document w organized
  = join [nl]
      (BuildBook.generate_toc organized
       :: flat_map
            (fun t =>
               BookSpec.topic_header t
               ++ flat_map (BookSpec.chapter w)
                    (BuildBook.files_of organized (BuildBook.key t)))
            (BookSpec.shown organized))
  /\ BuildBook.generate_toc organized
     = join [nl]
         (BookSpec.toc_head
          ++ flat_map (BookSpec.toc_entry organized)
               (BookSpec.shown organized)
          ++ [lit "---"; []])
  /\ BookSpec.shown organized
     = filter
         (fun t =>
            match BookSpec.topic_files w (BuildBook.key t) with
            | [] => false
            | _ :: _ => true
            end)
         BuildBook.TOPIC_ORDER
  /\ forall t,
       In t BuildBook.TOPIC_ORDER ->
       BuildBook.files_of organized (BuildBook.key t)
       = BookSpec.topic_files w (BuildBook.key t)
       /\ StronglySorted (holds str_leb)
            (map name (BuildBook.files_of organized (BuildBook.key t))).
Proof.
  intros organized.
  assert (Hfiles : forall t,
             In t BuildBook.TOPIC_ORDER ->
             BuildBook.files_of organized (BuildBook.key t)
             = BookSpec.topic_files w (BuildBook.key t)).
  { intros t Ht. now apply collect_files_topic. }
  split.
  { unfold BuildBook.build_master_document.
    now rewrite master_parts_sections. }
  split.
  { unfold BuildBook.generate_toc. now rewrite toc_lines_entries. }
  split.
  - unfold BookSpec.shown. apply filter_ext_in. intros t Ht.
    rewrite <- (Hfiles t Ht).
    unfold BuildBook.truthy, BuildBook.files_of.
    now destruct (BuildBook.dict_get organized (BuildBook.key t))
      as [[|f fs]|].
  - intros t Ht. split; [now apply Hfiles|].
    rewrite (Hfiles t Ht). apply topic_files_by_name.
Qed.

Lemma book_in_topic_and_name_order_witness :
  map BuildBook.key
    (BookSpec.shown (BuildBook.collect_files Runs.small_notebook))
  = [lit "models"; lit "amd"]
  /\ map name
       (BuildBook.files_of (BuildBook.collect_files Runs.small_notebook)
          (lit "models"))
     = [lit "a-intro.md"; lit "whisper.md"].
Proof.
  assert (Hnames : NoDup (map BuildBook.entry_name
                            (BuildBook.notebook Runs.small_notebook))).
  { repeat (constructor;
            [cbn; intros H;
             repeat (destruct H as [H|H]; [discriminate H|]); exact H|]).
    constructor. }
  destruct (@book_in_topic_and_name_order Runs.small_notebook Hnames)
    as (_ & _ & Hshown & Hfiles).
  split.
  - rewrite Hshown. reflexivity.
  - destruct (Hfiles (BuildBook.mk "models" "Part II: ASR Models"
                        "Overview and comparison of ASR models")) as [H _].
    + right. left. reflexivity.
    + cbn [BuildBook.key BuildBook.mk] in H. rewrite H. reflexivity.
Defined.

(** ** No pattern of the scripts matches the empty text *)

Lemma match_here_consumes (k : Re.cls) (q : Re.quant) (p : Re.pattern)
    (prev : option ascii) (s : str) :
  q = Re.One \/ q = Re.Plus ->
  Re.match_here (Re.Atom k q :: p) prev s <> Some 0.
Proof.
  intros [-> | ->]; cbn [Re.match_here]; destruct s as [|c s];
    try discriminate; destruct (Re.test k c); try discriminate.
  - destruct (Re.match_here p (Some c) s); discriminate.
  - destruct (Re.greedy (Re.test k) (Re.match_here p) (Some c) s);
      discriminate.
Qed.

Lemma match_here_bol (p : Re.pattern) (prev : option ascii) (s : str) :
  Re.match_here (Re.Bol :: p) prev s
  = if Re.at_bol prev then Re.match_here p prev s else None.
Proof. reflexivity. Qed.

Lemma script_patterns_consume :
  Forall (fun pat => forall prev s, Re.match_here pat prev s <> Some 0)
    script_patterns.
Proof.
  unfold script_patterns.
  repeat (apply Forall_cons;
          [intros prev s;
           first [ apply match_here_consumes; auto
                 | unfold BuildBook.top_header; rewrite match_here_bol;
                   destruct (Re.at_bol prev); [|discriminate];
                   apply match_here_consumes; auto ]|]).
  apply Forall_nil.
Qed.

(** * Further properties *)

(** ** The conversion stage, item by item *)

Lemma process_one_cases (w : Convert.world) (p : path) :
  (readable w p = false /\ Convert.process_one w p = Done [])
  \/ (readable w p = true
      /\ exists e, Convert.process_one w p = Done [e]
                   /\ Convert.source e = path_str p)
  \/ (breaks w p /\ Convert.process_one w p = Uncaught).
Proof.
  unfold readable, breaks, Convert.process_one, Convert.convert_to_ssml.
  destruct (Convert.read_markdown w p) as [content|msg]; [|now left].
  right. destruct (Convert.openrouter w content) as [[|c ssml]| |] eqn:E.
  - left. split; [reflexivity|]. eexists. split; reflexivity.
  - left. split; [reflexivity|].
    destruct (Convert.write_error w _ _); eexists; split; reflexivity.
  - left. split; [reflexivity|]. eexists. split; reflexivity.
  - right. split; [|reflexivity]. exists content. now split.
Qed.

Lemma process_files_sources (w : Convert.world) (l : list path) :
  forall acc es,
    Convert.process_files w acc l = Done es ->
    exists es',
      es = acc ++ es'
      /\ map Convert.source es' = map path_str (filter (readable w) l).
Proof.
  induction l as [|p l IH]; cbn [Convert.process_files filter];
    intros acc es H.
  - injection H as <-. exists []. now rewrite app_nil_r.
  - destruct (process_one_cases w p)
      as [[Hr Hp]|[[Hr (e & Hp & He)]|[_ Hp]]];
      rewrite Hp in H; rewrite ?Hr; try discriminate.
    + rewrite app_nil_r in H. exact (IH _ _ H).
    + destruct (IH _ _ H) as (es' & -> & Hs).
      exists (e :: es'). rewrite <- app_assoc. split; [reflexivity|].
      cbn [map]. now rewrite He, Hs.
Qed.

Lemma filter_length_le (A : Type) (f : A -> bool) (l : list A) :
  List.length (filter f l) <= List.length l.
Proof.
  induction l as [|a l IH]; cbn [filter List.length]; [lia|].
  destruct (f a); cbn [List.length]; lia.
Qed.

(** Whenever the conversion stage returns, "total_files" is the number of
    markdown files found, and the entries are those of the items that could
    be read, one each and in sorted path order: an item whose read fails
    leaves no entry, so there are at most "total_files" entries. *)
Theorem conversion_entries_are_the_readable_items (w : Convert.world)
    (m : Convert.manifest)
    (Hrun : Convert.process_notebook w = Done m) :
  Convert.total_files m = List.length (Convert.md_found w)
  /\ map Convert.source (Convert.files m)
     = map path_str
         (filter (readable w) (sorted path_leb (Convert.md_found w)))
  /\ List.length (Convert.files m) <= Convert.total_files m.
Proof.
  unfold Convert.process_notebook in Hrun.
  destruct (Convert.process_files w [] _) as [es| |] eqn:E;
    try discriminate.
  injection Hrun as <-. cbn [Convert.total_files Convert.files].
  destruct (process_files_sources _ _ _ E) as (es' & -> & Hs).
  cbn [app]. split; [apply sorted_length|]. split; [exact Hs|].
  rewrite <- (length_map Convert.source), Hs, length_map.
  rewrite sorted_length.
  rewrite <- (sorted_length path_leb (Convert.md_found w)).
  apply filter_length_le.
Qed.

Lemma conversion_entries_are_the_readable_items_witness :
  exists m,
    Convert.process_notebook Runs.unreadable_and_refused = Done m
    /\ Convert.total_files m = 2
    /\ map Convert.source (Convert.files m) = [lit "models/b.md"].
Proof.
  eexists. split; [reflexivity|].
  destruct (@conversion_entries_are_the_readable_items
              Runs.unreadable_and_refused _ eq_refl) as (Ht & Hs & _).
  split; [exact Ht | exact Hs].
Defined.

Lemma process_files_outcome (w : Convert.world) (l : list path) :
  forall acc,
    (Convert.process_files w acc l = Uncaught
     <-> exists p, In p l /\ breaks w p)
    /\ forall code, Convert.process_files w acc l <> SysExit code.
Proof.
  induction l as [|p l IH]; cbn [Convert.process_files]; intros acc.
  - split; [|discriminate]. split; [discriminate|].
    intros (p & [] & _).
  - assert (Hnot : forall q, breaks w q -> readable w q = true).
    { intros q (c & Hc & _). unfold readable. now rewrite Hc. }
    assert (Hdone : forall es q, Convert.process_one w q = Done es ->
                                 ~ breaks w q).
    { intros es q Hq (c & Hc & Ho).
      unfold Convert.process_one, Convert.convert_to_ssml in Hq.
      rewrite Hc, Ho in Hq. discriminate. }
    destruct (process_one_cases w p)
      as [[Hr Hp]|[[Hr (e & Hp & He)]|[Hb Hp]]]; rewrite Hp.
    + destruct (IH (acc ++ [])) as [Hiff Hex]. split; [|exact Hex].
      rewrite Hiff. split.
      * intros (q & Hq & Hbq). exists q. split; [now right | exact Hbq].
      * intros (q & [<-|Hq] & Hbq);
          [elim (Hdone _ _ Hp Hbq) | now exists q].
    + destruct (IH (acc ++ [e])) as [Hiff Hex]. split; [|exact Hex].
      rewrite Hiff. split.
      * intros (q & Hq & Hbq). exists q. split; [now right | exact Hbq].
      * intros (q & [<-|Hq] & Hbq);
          [elim (Hdone _ _ Hp Hbq) | now exists q].
    + split; [|discriminate]. split; [|reflexivity].
      intros _. exists p. split; [now left | exact Hb].
Qed.

(** One reply that raises loses the whole run: when the request of some
    item that is found and read ends in an exception that is no request
    exception, the conversion stage ends in an uncaught exception and leaves
    no manifest, whatever the other items are. *)
Theorem conversion_aborts_on_unexpected_reply (w : Convert.world)
    (p : path)
    (Hfound : In p (Convert.md_found w))
    (Hbreaks : breaks w p) :
  Convert.process_notebook w = Uncaught
  /\ forall m, Convert.process_notebook w <> Done m.
Proof.
  assert (H : Convert.process_notebook w = Uncaught).
  { unfold Convert.process_notebook.
    destruct (process_files_outcome w
                (sorted path_leb (Convert.md_found w)) []) as [Hiff _].
    rewrite (proj2 Hiff); [reflexivity|].
    exists p. split; [now apply sorted_in | exact Hbreaks]. }
  split; [exact H|]. intros m. rewrite H. discriminate.
Qed.

Lemma conversion_aborts_on_unexpected_reply_witness :
  Convert.process_notebook one_bad_reply = Uncaught
  /\ forall m, Convert.process_notebook one_bad_reply <> Done m.
Proof.
  apply (@conversion_aborts_on_unexpected_reply one_bad_reply
           (Runs.md "b.md")).
  - right. left. reflexivity.
  - exists (lit "# B"). split; reflexivity.
Defined.

Lemma process_one_shapes (w : Convert.world) (p : path)
    (es : list Convert.entry) :
  Convert.process_one w p = Done es -> Forall well_shaped es.
Proof.
  unfold Convert.process_one, Convert.convert_to_ssml, well_shaped.
  destruct (Convert.read_markdown w p) as [content|msg].
  - destruct (Convert.openrouter w content) as [[|c ssml]| |];
      try discriminate.
    + intros [= <-]. constructor; [|constructor]. right. right.
      now repeat split.
    + destruct (Convert.write_error w _ _); intros [= <-];
        (constructor; [|constructor]).
      * right. left. now repeat split.
      * left. now repeat split.
    + intros [= <-]. constructor; [|constructor]. right. right.
      now repeat split.
  - intros [= <-]. constructor.
Qed.

Lemma process_files_shapes (w : Convert.world) (l : list path) :
  forall acc es,
    Convert.process_files w acc l = Done es ->
    Forall well_shaped acc -> Forall well_shaped es.
Proof.
  induction l as [|p l IH]; cbn [Convert.process_files]; intros acc es H Ha.
  - now injection H as <-.
  - destruct (Convert.process_one w p) as [es1| |] eqn:E; try discriminate.
    apply (IH _ _ H). apply Forall_app. split; [exact Ha|].
    exact (@process_one_shapes _ _ _ E).
Qed.

(** In every conversion manifest an entry carries an error detail exactly
    when its status is error, and lacks an output path exactly when its
    status is conversion_failed: a failed save still records the path it
    meant to write. *)
Theorem conversion_entries_well_shaped (w : Convert.world) :
  Forall well_shaped (conversion_entries (Convert.process_notebook w)).
Proof.
  unfold Convert.process_notebook.
  destruct (Convert.process_files w [] _) as [es| |] eqn:E;
    cbn [conversion_entries Convert.files]; try constructor.
  eapply process_files_shapes; [exact E | constructor].
Qed.

(** ** Output paths *)

Lemma rfind_dot_none (s : str) :
  has_char "." s = false ->
  forall i found, rfind_dot i found s = found.
Proof.
  induction s as [|c s IH]; intros H i found; [reflexivity|].
  cbn [has_char existsb] in H. apply orb_false_iff in H.
  destruct H as [Hc Hs]. cbn [rfind_dot]. rewrite Hc. now apply IH.
Qed.

Lemma rfind_dot_last (base ext : str) :
  has_char "." ext = false ->
  forall i found,
    rfind_dot i found (base ++ "."%char :: ext)
    = Some (i + List.length base).
Proof.
  intros Hext. induction base as [|c base IH]; intros i found.
  - cbn [app rfind_dot List.length]. rewrite eqc_refl.
    rewrite (@rfind_dot_none ext Hext). f_equal. lia.
  - cbn [app rfind_dot List.length]. rewrite IH. f_equal. lia.
Qed.

Lemma stem_of_file (dir : path) (base ext : str) :
  base <> [] -> ext <> [] -> has_char "." ext = false ->
  stem (dir ++ [base ++ "."%char :: ext]) = base.
Proof.
  intros Hb He Hext. unfold stem, name. rewrite last_last.
  rewrite (@rfind_dot_last base ext Hext). cbn [Nat.add].
  rewrite length_app. cbn [List.length].
  destruct base as [|b base]; [now elim Hb|].
  destruct ext as [|x ext]; [now elim He|].
  cbn [List.length].
  replace (0 <? S (List.length base)) with true
    by (symmetry; apply Nat.ltb_lt; lia).
  replace (S (List.length base)
           <? S (List.length base) + S (S (List.length ext)) - 1)
    with true by (symmetry; apply Nat.ltb_lt; lia).
  cbn [andb].
  change (S (List.length base)) with (List.length (b :: base)).
  now rewrite firstn_app, firstn_all, Nat.sub_diag, app_nil_r.
Qed.

Lemma parent_of_file (dir : path) (n : str) : parent (dir ++ [n]) = dir.
Proof. unfold parent. apply removelast_last. Qed.

(** The output of a note keeps its directory and base name and changes the
    extension: dir/base.md is converted to dir/base.ssml, which is
    synthesized to dir/base.wav by the Kokoro script and to dir/base.mp3 by
    the edge-tts script, for every non-empty base name. *)
Theorem outputs_mirror_the_source_path (dir : path) (base : str)
    (Hbase : base <> []) :
  Convert.ssml_file_of (dir ++ [base ++ lit ".md"])
  = dir ++ [base ++ lit ".ssml"]
  /\ Podcast.audio_file_of ".wav" (dir ++ [base ++ lit ".ssml"])
     = dir ++ [base ++ lit ".wav"]
  /\ Podcast.audio_file_of ".mp3" (dir ++ [base ++ lit ".ssml"])
     = dir ++ [base ++ lit ".mp3"].
Proof.
  unfold Convert.ssml_file_of, Podcast.audio_file_of.
  rewrite !parent_of_file.
  change (lit ".md") with ("."%char :: lit "md").
  change (lit ".ssml") with ("."%char :: lit "ssml").
  rewrite !stem_of_file; try assumption; try discriminate; try reflexivity.
  now repeat split.
Qed.

Lemma outputs_mirror_the_source_path_witness :
  Convert.ssml_file_of [lit "models"; lit "whisper.v3.md"]
  = [lit "models"; lit "whisper.v3.ssml"]
  /\ Podcast.audio_file_of ".wav" [lit "models"; lit "whisper.v3.ssml"]
     = [lit "models"; lit "whisper.v3.wav"].
Proof.
  destruct (@outputs_mirror_the_source_path [lit "models"]
              (lit "whisper.v3")) as (H1 & H2 & _); [discriminate|].
  split; [exact H1 | exact H2].
Defined.

(** A file named just ".md" has no extension for [pathlib], so its output
    keeps the whole name. *)
Lemma dot_md_keeps_its_name :
  Convert.ssml_file_of [lit "models"; lit ".md"]
  = [lit "models"; lit ".md.ssml"].
Proof. reflexivity. Qed.

(** ** The shape of stripped text *)

Lemma normal_blanks_are_spaces (s : str) :
  forall b, normal_from b s ->
  forall c, In c s -> is_space c = true -> c = " "%char.
Proof.
  induction s as [|a s IH]; intros b H c Hc Hsp; [elim Hc|].
  cbn [normal_from] in H. destruct Hc as [<-|Hc].
  - rewrite Hsp in H. now destruct H.
  - destruct (is_space a).
    + destruct H as (_ & _ & H). exact (IH _ H _ Hc Hsp).
    + exact (IH _ H _ Hc Hsp).
Qed.

Lemma normal_no_double_space (s : str) :
  forall b, normal_from b s -> contains (lit "  ") s = false.
Proof.
  change (lit "  ") with [" "%char; " "%char].
  induction s as [|a s IH]; intros b H; [reflexivity|].
  cbn [contains]. cbn [normal_from] in H.
  assert (Hs : contains [" "%char; " "%char] s = false).
  { destruct (is_space a); [destruct H as (_ & _ & H)|]; exact (IH _ H). }
  rewrite Hs, orb_false_r.
  destruct s as [|d s]; rewrite !starts_with_cons;
    [now rewrite andb_false_r|].
  destruct (eqc " " a) eqn:Ea; [|reflexivity].
  apply eqc_eq in Ea. subst a.
  replace (is_space " ") with true in H by reflexivity.
  destruct H as (_ & _ & H). cbn [normal_from] in H.
  destruct (eqc " " d) eqn:Ed; [|reflexivity].
  apply eqc_eq in Ed. subst d.
  replace (is_space " ") with true in H by reflexivity.
  now destruct H as (_ & H & _).
Qed.

Lemma strip_ssml_tags_normalized (ssml_content : str) :
  let text := Kokoro.strip_ssml_tags ssml_content in
  strip text = text
  /\ (forall c, In c text -> is_space c = true -> c = " "%char)
  /\ has_char nl text = false
  /\ contains (lit "  ") text = false.
Proof.
  intros text.
  assert (Hn : normal_from false text).
  { unfold text. rewrite strip_ssml_tags_unfold.
    apply strip_normal, collapse_normal. }
  assert (Hb : forall c, In c text -> is_space c = true -> c = " "%char)
    by exact (normal_blanks_are_spaces _ _ Hn).
  split; [|split; [exact Hb|split]].
  - unfold text. rewrite strip_ssml_tags_unfold. apply strip_idem.
  - unfold has_char. destruct (existsb (eqc nl) text) eqn:E; [|reflexivity].
    apply existsb_exists in E. destruct E as (c & Hc & Ec).
    apply eqc_eq in Ec. subst c.
    now specialize (Hb nl Hc eq_refl).
  - exact (normal_no_double_space _ _ Hn).
Qed.

(** Whatever the input, the text [strip_ssml_tags] returns is
    whitespace-normalized: it neither starts nor ends with a blank, its only
    blank character is the space (no tab, no line break), and it has no two
    spaces in a row. *)
Theorem strip_ssml_tags_output_normalized (ssml_content : str) :
  let text := Kokoro.strip_ssml_tags ssml_content in
  strip text = text
  /\ (forall c, In c text -> is_space c = true -> c = " "%char)
  /\ has_char nl text = false
  /\ contains (lit "  ") text = false.
Proof. exact (strip_ssml_tags_normalized ssml_content). Qed.

(** ** One file through each backend *)



(** ** The loops of the synthesis scripts *)

Lemma kokoro_loop (w : Kokoro.world) (l : list path) :
  forall st,
    fold_left (Kokoro.process_one w) l st
    = {| Podcast.audio_files :=
           Podcast.audio_files st
           ++ map (Podcast.audio_file_of ".wav")
                (filter (kokoro_succeeds w) l);
         Podcast.entries := Podcast.entries st ++ map (kokoro_entry w) l;
         Podcast.trace :=
           Podcast.trace st ++ flat_map (kokoro_events w) l |}.
Proof.
  induction l as [|p l IH]; intros st; cbn [fold_left filter map flat_map].
  - rewrite !app_nil_r. now destruct st.
  - rewrite IH. unfold Kokoro.process_one, kokoro_succeeds, kokoro_entry,
      kokoro_events.
    destruct (Kokoro.convert_ssml_to_audio_kokoro w p _) as [[|] evs];
      cbn [fst snd Podcast.audio_files Podcast.entries Podcast.trace map];
      now rewrite <- !app_assoc.
Qed.

Lemma edge_loop (w : EdgeTts.world) (voice : str) (l : list path) :
  forall st,
    fold_left (EdgeTts.process_one w voice) l st
    = {| Podcast.audio_files :=
           Podcast.audio_files st
           ++ map (Podcast.audio_file_of ".mp3")
                (filter (edge_succeeds w voice) l);
         Podcast.entries :=
           Podcast.entries st ++ map (edge_entry w voice) l;
         Podcast.trace :=
           Podcast.trace st ++ flat_map (edge_events w voice) l |}.
Proof.
  induction l as [|p l IH]; intros st; cbn [fold_left filter map flat_map].
  - rewrite !app_nil_r. now destruct st.
  - rewrite IH. unfold EdgeTts.process_one, edge_succeeds, edge_entry,
      edge_events.
    destruct (EdgeTts.convert_ssml_to_audio w p _ voice) as [[|] evs];
      cbn [fst snd Podcast.audio_files Podcast.entries Podcast.trace map];
      now rewrite <- !app_assoc.
Qed.

Lemma kokoro_entry_eq (w : Kokoro.world) (p : path) :
  kokoro_entry w p
  = if kokoro_succeeds w p
    then Podcast.success_entry p (Podcast.audio_file_of ".wav" p)
    else Podcast.failed_entry p.
Proof. reflexivity. Qed.

Lemma edge_entry_eq (w : EdgeTts.world) (voice : str) (p : path) :
  edge_entry w voice p
  = if edge_succeeds w voice p
    then Podcast.success_entry p (Podcast.audio_file_of ".mp3" p)
    else Podcast.failed_entry p.
Proof. reflexivity. Qed.

Lemma successes_kokoro (w : Kokoro.world) (l : list path) :
  successes (map (kokoro_entry w) l)
  = List.length (filter (kokoro_succeeds w) l).
Proof.
  unfold successes. induction l as [|p l IH]; [reflexivity|].
  cbn [map filter]. rewrite !kokoro_entry_eq.
  destruct (kokoro_succeeds _ p); cbn [Podcast.status Podcast.success_entry
                          Podcast.failed_entry];
    [replace (str_eqb (lit "success") (lit "success")) with true
       by reflexivity
    |replace (str_eqb (lit "failed") (lit "success")) with false
       by reflexivity];
    cbn [List.length]; now rewrite IH.
Qed.

Lemma successes_edge (w : EdgeTts.world) (voice : str) (l : list path) :
  successes (map (edge_entry w voice) l)
  = List.length (filter (edge_succeeds w voice) l).
Proof.
  unfold successes. induction l as [|p l IH]; [reflexivity|].
  cbn [map filter]. rewrite !edge_entry_eq.
  destruct (edge_succeeds _ _ p); cbn [Podcast.status Podcast.success_entry
                          Podcast.failed_entry];
    [replace (str_eqb (lit "success") (lit "success")) with true
       by reflexivity
    |replace (str_eqb (lit "failed") (lit "success")) with false
       by reflexivity];
    cbn [List.length]; now rewrite IH.
Qed.

Lemma kokoro_stage_result (w : Kokoro.world) (concatenate : bool)
    (m : Podcast.manifest) (evs : list Podcast.event) :
  Kokoro.process_ssml_directory w concatenate = Done (m, evs) ->
  let files := sorted path_leb (Kokoro.ssml_found w) in
  let audios :=
    map (Podcast.audio_file_of ".wav") (filter (kokoro_succeeds w) files) in
  let ran := concatenate && nonempty audios && Kokoro.write_list w audios in
  Podcast.total_files m = List.length files
  /\ Podcast.files m = map (kokoro_entry w) files
  /\ evs = flat_map (kokoro_events w) files
           ++ (if ran
               then [Podcast.RunFfmpeg audios (kokoro_podcast_file w)]
               else [])
  /\ Podcast.full m
     = if ran && exited_0 (Kokoro.ffmpeg w audios (kokoro_podcast_file w))
       then Some {| Podcast.file := path_str (kokoro_podcast_file w);
                    Podcast.track_count := List.length audios |}
       else None.
Proof.
  unfold Kokoro.process_ssml_directory, kokoro_podcast_file.
  destruct (Kokoro.manifest_json w); try discriminate.
  destruct (sorted path_leb (Kokoro.ssml_found w)) as [|p l];
    [discriminate|].
  rewrite kokoro_loop.
  cbn [Podcast.audio_files Podcast.entries Podcast.trace app].
  intros H. cbv zeta.
  destruct concatenate; cbn [andb].
  - destruct (map _ (filter _ (p :: l))) as [|a audios] eqn:Ea;
      cbn [nonempty andb].
    + injection H as <- <-. rewrite app_nil_r. now repeat split.
    + unfold Podcast.concatenate_audio_files in H.
      destruct (Kokoro.write_list w (a :: audios)); cbn [andb].
      * unfold exited_0.
        destruct (Kokoro.ffmpeg w (a :: audios) _) as [[|n]| |];
          injection H as <- <-; repeat split.
      * injection H as <- <-. repeat split.
  - injection H as <- <-. rewrite app_nil_r. now repeat split.
Qed.

Lemma edge_stage_result (w : EdgeTts.world) (voice : str)
    (concatenate : bool) (m : Podcast.manifest)
    (evs : list Podcast.event) :
  EdgeTts.process_ssml_directory w voice concatenate = Done (m, evs) ->
  let files := sorted path_leb (EdgeTts.ssml_found w) in
  let audios :=
    map (Podcast.audio_file_of ".mp3")
      (filter (edge_succeeds w voice) files) in
  let ran := concatenate && nonempty audios && EdgeTts.write_list w audios in
  Podcast.total_files m = List.length files
  /\ Podcast.files m = map (edge_entry w voice) files
  /\ evs = flat_map (edge_events w voice) files
           ++ (if ran
               then [Podcast.RunFfmpeg audios (edge_podcast_file w)]
               else [])
  /\ Podcast.full m
     = if ran && exited_0 (EdgeTts.ffmpeg w audios (edge_podcast_file w))
       then Some {| Podcast.file := path_str (edge_podcast_file w);
                    Podcast.track_count := List.length audios |}
       else None.
Proof.
  unfold EdgeTts.process_ssml_directory, edge_podcast_file.
  destruct (EdgeTts.manifest_json w); try discriminate.
  destruct (sorted path_leb (EdgeTts.ssml_found w)) as [|p l];
    [discriminate|].
  rewrite edge_loop.
  cbn [Podcast.audio_files Podcast.entries Podcast.trace app].
  intros H. cbv zeta.
  destruct concatenate; cbn [andb].
  - destruct (map _ (filter _ (p :: l))) as [|a audios] eqn:Ea;
      cbn [nonempty andb].
    + injection H as <- <-. rewrite app_nil_r. now repeat split.
    + unfold Podcast.concatenate_audio_files in H.
      destruct (EdgeTts.write_list w (a :: audios)); cbn [andb].
      * unfold exited_0.
        destruct (EdgeTts.ffmpeg w (a :: audios) _) as [[|n]| |];
          injection H as <- <-; repeat split.
      * injection H as <- <-. repeat split.
  - injection H as <- <-. rewrite app_nil_r. now repeat split.
Qed.

Lemma kokoro_events_no_ffmpeg (w : Kokoro.world) (l : list path) :
  filter is_ffmpeg (flat_map (kokoro_events w) l) = [].
Proof.
  induction l as [|p l IH]; [reflexivity|]. cbn [flat_map].
  rewrite filter_app, IH, app_nil_r.
  unfold kokoro_events, Kokoro.convert_ssml_to_audio_kokoro.
  destruct (Kokoro.read_ssml w p); [|reflexivity].
  destruct (Kokoro.strip_ssml_tags _); [reflexivity|].
  destruct (Kokoro.hf_inference w _) as [code data|]; [|reflexivity].
  now destruct (code =? 200).
Qed.

Lemma edge_events_no_ffmpeg (w : EdgeTts.world) (voice : str)
    (l : list path) :
  filter is_ffmpeg (flat_map (edge_events w voice) l) = [].
Proof.
  induction l as [|p l IH]; [reflexivity|]. cbn [flat_map].
  rewrite filter_app, IH, app_nil_r.
  unfold edge_events, EdgeTts.convert_ssml_to_audio.
  destruct (EdgeTts.read_ssml w p); [|reflexivity].
  now destruct (EdgeTts.edge_tts w voice _ _) as [[|n]| |].
Qed.

Lemma success_outputs_kokoro (w : Kokoro.world) (l : list path) :
  map Podcast.audio_output
    (filter (fun e => str_eqb (Podcast.status e) (lit "success"))
       (map (kokoro_entry w) l))
  = map (fun a => Some (path_str a))
      (map (Podcast.audio_file_of ".wav") (filter (kokoro_succeeds w) l)).
Proof.
  induction l as [|p l IH]; [reflexivity|].
  cbn [map filter]. rewrite !kokoro_entry_eq.
  destruct (kokoro_succeeds _ p); cbn [Podcast.status Podcast.success_entry
                          Podcast.failed_entry];
    [replace (str_eqb (lit "success") (lit "success")) with true
       by reflexivity
    |replace (str_eqb (lit "failed") (lit "success")) with false
       by reflexivity];
    cbn [map Podcast.audio_output]; rewrite IH; reflexivity.
Qed.

Lemma success_outputs_edge (w : EdgeTts.world) (voice : str)
    (l : list path) :
  map Podcast.audio_output
    (filter (fun e => str_eqb (Podcast.status e) (lit "success"))
       (map (edge_entry w voice) l))
  = map (fun a => Some (path_str a))
      (map (Podcast.audio_file_of ".mp3")
         (filter (edge_succeeds w voice) l)).
Proof.
  induction l as [|p l IH]; [reflexivity|].
  cbn [map filter]. rewrite !edge_entry_eq.
  destruct (edge_succeeds _ _ p); cbn [Podcast.status Podcast.success_entry
                          Podcast.failed_entry];
    [replace (str_eqb (lit "success") (lit "success")) with true
       by reflexivity
    |replace (str_eqb (lit "failed") (lit "success")) with false
       by reflexivity];
    cbn [map Podcast.audio_output]; rewrite IH; reflexivity.
Qed.

(** ** Concatenation *)

(** Whenever the Kokoro script returns: "total_files" is the number of
    entries; ffmpeg is called once, last, exactly when concatenation is
    asked for, at least one file succeeded and concat_list.txt could be
    written, on the audio files of the success entries in manifest order;
    "full_podcast" is recorded exactly when that run exits with status 0,
    and its track count is the number of success entries. *)
Theorem kokoro_concatenation (w : Kokoro.world) (concatenate : bool)
    (m : Podcast.manifest) (evs : list Podcast.event)
    (Hrun : Kokoro.process_ssml_directory w concatenate = Done (m, evs)) :
  let audios :=
    map (Podcast.audio_file_of ".wav")
      (filter (kokoro_succeeds w) (sorted path_leb (Kokoro.ssml_found w))) in
  let ran := concatenate && nonempty audios && Kokoro.write_list w audios in
  Podcast.total_files m = List.length (Podcast.files m)
  /\ map Podcast.audio_output
       (filter (fun e => str_eqb (Podcast.status e) (lit "success"))
          (Podcast.files m))
     = map (fun a => Some (path_str a)) audios
  /\ filter is_ffmpeg evs
     = (if ran
        then [Podcast.RunFfmpeg audios (kokoro_podcast_file w)]
        else [])
  /\ (ran = true ->
      exists before,
        evs = before ++ [Podcast.RunFfmpeg audios (kokoro_podcast_file w)])
  /\ Podcast.full m
     = if ran && exited_0 (Kokoro.ffmpeg w audios (kokoro_podcast_file w))
       then Some {| Podcast.file := path_str (kokoro_podcast_file w);
                    Podcast.track_count := successes (Podcast.files m) |}
       else None.
Proof.
  destruct (kokoro_stage_result _ _ Hrun) as (Ht & Hf & He & Hfull).
  cbv zeta in *. rewrite Hf, successes_kokoro, length_map.
  split; [exact Ht|]. split; [apply success_outputs_kokoro|].
  split; [|split].
  - rewrite He, filter_app, kokoro_events_no_ffmpeg.
    now destruct (concatenate && nonempty _ && _).
  - intros Hran. rewrite Hran in He. eexists. exact He.
  - now rewrite Hfull, length_map.
Qed.

Lemma kokoro_concatenation_witness :
  exists m evs,
    Kokoro.process_ssml_directory Runs.kokoro_after_seven true
    = Done (m, evs)
    /\ Podcast.total_files m = 7
    /\ Podcast.full m
       = Some {| Podcast.file := lit "stt-finetune-podcast-20250103.wav";
                 Podcast.track_count := 7 |}.
Proof.
  do 2 eexists. split; [reflexivity|].
  destruct (@kokoro_concatenation Runs.kokoro_after_seven true _ _ eq_refl)
    as (Ht & _ & _ & _ & Hfull).
  split; [exact Ht | exact Hfull].
Defined.

(** The same for the edge-tts script. *)
Theorem edge_concatenation (w : EdgeTts.world) (voice : str)
    (concatenate : bool) (m : Podcast.manifest) (evs : list Podcast.event)
    (Hrun : EdgeTts.process_ssml_directory w voice concatenate
            = Done (m, evs)) :
  let audios :=
    map (Podcast.audio_file_of ".mp3")
      (filter (edge_succeeds w voice)
         (sorted path_leb (EdgeTts.ssml_found w))) in
  let ran := concatenate && nonempty audios && EdgeTts.write_list w audios in
  Podcast.total_files m = List.length (Podcast.files m)
  /\ map Podcast.audio_output
       (filter (fun e => str_eqb (Podcast.status e) (lit "success"))
          (Podcast.files m))
     = map (fun a => Some (path_str a)) audios
  /\ filter is_ffmpeg evs
     = (if ran
        then [Podcast.RunFfmpeg audios (edge_podcast_file w)]
        else [])
  /\ (ran = true ->
      exists before,
        evs = before ++ [Podcast.RunFfmpeg audios (edge_podcast_file w)])
  /\ Podcast.full m
     = if ran && exited_0 (EdgeTts.ffmpeg w audios (edge_podcast_file w))
       then Some {| Podcast.file := path_str (edge_podcast_file w);
                    Podcast.track_count := successes (Podcast.files m) |}
       else None.
Proof.
  destruct (edge_stage_result _ _ _ Hrun) as (Ht & Hf & He & Hfull).
  cbv zeta in *. rewrite Hf, successes_edge, length_map.
  split; [exact Ht|]. split; [apply success_outputs_edge|].
  split; [|split].
  - rewrite He, filter_app, edge_events_no_ffmpeg.
    now destruct (concatenate && nonempty _ && _).
  - intros Hran. rewrite Hran in He. eexists. exact He.
  - now rewrite Hfull, length_map.
Qed.

Lemma edge_concatenation_witness :
  exists m evs,
    EdgeTts.process_ssml_directory edge_list_unwritable
      EdgeTts.DEFAULT_VOICE true = Done (m, evs)
    /\ successes (Podcast.files m) = 7
    /\ filter is_ffmpeg evs = []
    /\ Podcast.full m = None.
Proof.
  do 2 eexists. split; [reflexivity|].
  destruct (@edge_concatenation edge_list_unwritable EdgeTts.DEFAULT_VOICE
              true _ _ eq_refl) as (_ & _ & He & _ & Hfull).
  split; [reflexivity|]. split; [exact He | exact Hfull].
Defined.

(** ** When the synthesis scripts stop before the loop *)

(** A synthesis script returns only when the conversion manifest is there
    and parses and at least one SSML file is found, and it leaves through
    [sys.exit] only with status 1 and only because the manifest is missing
    or no SSML file is found; with a manifest that does not parse it does
    neither. *)
Theorem synthesis_stops_without_input (kw : Kokoro.world)
    (ew : EdgeTts.world) (voice : str) (concatenate : bool) :
  let k := Kokoro.process_ssml_directory kw concatenate in
  let e := EdgeTts.process_ssml_directory ew voice concatenate in
  (forall r, k = Done r ->
     (exists cm, Kokoro.manifest_json kw = Podcast.Loaded cm)
     /\ Kokoro.ssml_found kw <> [])
  /\ (forall code, k = SysExit code ->
        code = 1
        /\ (Kokoro.manifest_json kw = Podcast.Absent
            \/ (exists cm, Kokoro.manifest_json kw = Podcast.Loaded cm)
               /\ Kokoro.ssml_found kw = []))
  /\ (forall r, e = Done r ->
        (exists cm, EdgeTts.manifest_json ew = Podcast.Loaded cm)
        /\ EdgeTts.ssml_found ew <> [])
  /\ (forall code, e = SysExit code ->
        code = 1
        /\ (EdgeTts.manifest_json ew = Podcast.Absent
            \/ (exists cm, EdgeTts.manifest_json ew = Podcast.Loaded cm)
               /\ EdgeTts.ssml_found ew = [])).
Proof.
  cbv zeta. split; [|split; [|split]].
  - intros r H. unfold Kokoro.process_ssml_directory in H.
    destruct (Kokoro.manifest_json kw) as [| |cm]; try discriminate.
    split; [now exists cm|]. intros E. rewrite E in H. discriminate H.
  - intros code. unfold Kokoro.process_ssml_directory.
    destruct (Kokoro.manifest_json kw) as [| |cm]; try discriminate.
    + intros [= <-]. split; [reflexivity | now left].
    + destruct (sorted path_leb (Kokoro.ssml_found kw)) as [|p l] eqn:E.
      * apply sorted_nil_inv in E. intros [= <-].
        split; [reflexivity|]. right. split; [now exists cm | exact E].
      * destruct concatenate;
          [destruct (Podcast.audio_files _);
           [|destruct (Podcast.concatenate_audio_files _ _ _ _)
               as [[|] ?]]|];
          discriminate.
  - intros r H. unfold EdgeTts.process_ssml_directory in H.
    destruct (EdgeTts.manifest_json ew) as [| |cm]; try discriminate.
    split; [now exists cm|]. intros E. rewrite E in H. discriminate H.
  - intros code. unfold EdgeTts.process_ssml_directory.
    destruct (EdgeTts.manifest_json ew) as [| |cm]; try discriminate.
    + intros [= <-]. split; [reflexivity | now left].
    + destruct (sorted path_leb (EdgeTts.ssml_found ew)) as [|p l] eqn:E.
      * apply sorted_nil_inv in E. intros [= <-].
        split; [reflexivity|]. right. split; [now exists cm | exact E].
      * destruct concatenate;
          [destruct (Podcast.audio_files _);
           [|destruct (Podcast.concatenate_audio_files _ _ _ _)
               as [[|] ?]]|];
          discriminate.
Qed.

Lemma synthesis_stops_without_input_witness :
  (exists cm,
      Kokoro.manifest_json Runs.kokoro_after_seven = Podcast.Loaded cm)
  /\ Kokoro.ssml_found Runs.kokoro_after_seven <> [].
Proof.
  destruct (@synthesis_stops_without_input Runs.kokoro_after_seven
              Runs.edge_after_seven EdgeTts.DEFAULT_VOICE true)
    as (Hk & _).
  exact (Hk _ eq_refl).
Defined.

(** ** What reaches the backends *)

Lemma backend_texts_app (a b : list Podcast.event) :
  backend_texts (a ++ b) = backend_texts a ++ backend_texts b.
Proof.
  induction a as [|ev a IH]; [reflexivity|].
  cbn [app backend_texts]. destruct ev; cbn [app]; now rewrite IH.
Qed.

Lemma backend_texts_kokoro (w : Kokoro.world) (l : list path) :
  backend_texts (flat_map (kokoro_events w) l) = flat_map (kokoro_text w) l.
Proof.
  induction l as [|p l IH]; [reflexivity|]. cbn [flat_map].
  rewrite backend_texts_app, IH. f_equal.
  unfold kokoro_events, kokoro_text, Kokoro.convert_ssml_to_audio_kokoro.
  destruct (Kokoro.read_ssml w p); [|reflexivity].
  destruct (Kokoro.strip_ssml_tags _) as [|c t]; [reflexivity|].
  destruct (Kokoro.hf_inference w _) as [code data|]; [|reflexivity].
  now destruct (code =? 200).
Qed.

Lemma backend_texts_edge (w : EdgeTts.world) (voice : str) (l : list path) :
  backend_texts (flat_map (edge_events w voice) l)
  = flat_map (edge_text w) l.
Proof.
  induction l as [|p l IH]; [reflexivity|]. cbn [flat_map].
  rewrite backend_texts_app, IH. f_equal.
  unfold edge_events, edge_text, EdgeTts.convert_ssml_to_audio.
  destruct (EdgeTts.read_ssml w p); [|reflexivity].
  now destruct (EdgeTts.edge_tts w voice _ _) as [[|n]| |].
Qed.

Lemma backend_texts_ffmpeg (b : bool) (audios : list path) (out : path) :
  backend_texts (if b then [Podcast.RunFfmpeg audios out] else []) = [].
Proof. now destruct b. Qed.

(** Over a whole run of the Kokoro script, the texts posted to the endpoint
    are the stripped texts of the readable files, in sorted path order,
    without those that are empty: every text posted is non-empty and
    whitespace-normalized, and at most one is posted per file. *)
Theorem kokoro_posts_normalized_texts (w : Kokoro.world)
    (concatenate : bool) (m : Podcast.manifest) (evs : list Podcast.event)
    (Hrun : Kokoro.process_ssml_directory w concatenate = Done (m, evs)) :
  backend_texts evs
  = flat_map (kokoro_text w) (sorted path_leb (Kokoro.ssml_found w))
  /\ Forall
       (fun text =>
          text <> [] /\ strip text = text /\ has_char nl text = false
          /\ contains (lit "  ") text = false)
       (backend_texts evs)
  /\ List.length (backend_texts evs) <= List.length (Podcast.files m).
Proof.
  destruct (kokoro_stage_result _ _ Hrun) as (_ & Hf & He & _).
  cbv zeta in He. rewrite He, backend_texts_app, backend_texts_ffmpeg,
    app_nil_r, backend_texts_kokoro, Hf, length_map.
  split; [reflexivity|].
  generalize (sorted path_leb (Kokoro.ssml_found w)) as l.
  induction l as [|p l [IHa IHl]]; [split; [constructor | apply Nat.le_refl]|].
  cbn [flat_map List.length]. rewrite length_app.
  unfold kokoro_text at 1 3.
  destruct (Kokoro.read_ssml w p) as [content|msg];
    [|split; [exact IHa | cbn [app List.length]; lia]].
  destruct (strip_ssml_tags_normalized content) as (Hs & _ & Hn & Hd).
  destruct (Kokoro.strip_ssml_tags content) as [|c t];
    [split; [exact IHa | cbn [app List.length]; lia]|].
  split; [|cbn [app List.length]; lia].
  cbn [app]. constructor; [|exact IHa].
  split; [discriminate|]. now repeat split.
Qed.

Lemma kokoro_posts_normalized_texts_witness :
  exists m evs,
    Kokoro.process_ssml_directory
      (Runs.kokoro_one "<speak>  Hello <break/>  there </speak>") true
    = Done (m, evs)
    /\ backend_texts evs = [lit "Hello there"].
Proof.
  do 2 eexists. split; [reflexivity|].
  exact (proj1 (@kokoro_posts_normalized_texts
                  (Runs.kokoro_one "<speak>  Hello <break/>  there </speak>")
                  true _ _ eq_refl)).
Defined.

(** Over a whole run of the edge-tts script, the texts handed to edge-tts
    are the contents of the readable files, unchanged and in sorted path
    order, one per readable file. *)
Theorem edge_sends_file_contents (w : EdgeTts.world) (voice : str)
    (concatenate : bool) (m : Podcast.manifest) (evs : list Podcast.event)
    (Hrun : EdgeTts.process_ssml_directory w voice concatenate
            = Done (m, evs)) :
  backend_texts evs
  = flat_map (edge_text w) (sorted path_leb (EdgeTts.ssml_found w)).
Proof.
  destruct (edge_stage_result _ _ _ Hrun) as (_ & _ & He & _).
  cbv zeta in He.
  now rewrite He, backend_texts_app, backend_texts_ffmpeg, app_nil_r,
    backend_texts_edge.
Qed.

Lemma edge_sends_file_contents_witness :
  exists m evs,
    EdgeTts.process_ssml_directory
      (Runs.edge_one "<speak>  Hello <break/>  there </speak>")
      EdgeTts.DEFAULT_VOICE true = Done (m, evs)
    /\ backend_texts evs = [lit "<speak>  Hello <break/>  there </speak>"].
Proof.
  do 2 eexists. split; [reflexivity|].
  exact (@edge_sends_file_contents
           (Runs.edge_one "<speak>  Hello <break/>  there </speak>")
           EdgeTts.DEFAULT_VOICE true _ _ eq_refl).
Defined.

(** ** The scripts from their first line *)

Lemma process_notebook_no_exit (w : Convert.world) (code : nat) :
  Convert.process_notebook w <> SysExit code.
Proof.
  unfold Convert.process_notebook.
  destruct (process_files_outcome w (sorted path_leb (Convert.md_found w))
              []) as [_ Hex].
  destruct (Convert.process_files w [] _) as [es| |] eqn:E;
    try discriminate.
  now elim (Hex code0).
Qed.

(** The conversion script leaves through [sys.exit] only with status 1 and
    only because OPENROUTER_API_KEY is unset or empty, before any file is
    looked at; with the key set it is [process_notebook]. *)
Theorem convert_script_needs_its_key (key : option str)
    (w : Convert.world) :
  (forall code,
      Cli.convert_script key w = SysExit code
      <-> code = 1 /\ Cli.unset key = true)
  /\ (Cli.unset key = false ->
      Cli.convert_script key w = Convert.process_notebook w).
Proof.
  unfold Cli.convert_script. destruct (Cli.unset key).
  - split; [|discriminate]. intros code. split.
    + now intros [= <-].
    + now intros [-> _].
  - split; [|reflexivity]. intros code. split.
    + intros H. now elim (process_notebook_no_exit _ H).
    + intros [_ H]. discriminate H.
Qed.

Lemma convert_script_needs_its_key_witness :
  Cli.convert_script (Some (lit "sk-or-v1")) Runs.all_fine
  = Convert.process_notebook Runs.all_fine.
Proof.
  apply (proj2 (@convert_script_needs_its_key (Some (lit "sk-or-v1"))
                  Runs.all_fine)).
  reflexivity.
Defined.

(** A run of the Kokoro script that returns had a token, HF_TOKEN or, when
    that is unset or empty, HF_API_KEY; and when --no-concatenate is given
    or [ffmpeg -version] does not exit with 0, ffmpeg is never run and no
    "full_podcast" is recorded. *)
Theorem kokoro_script_returns (HF_TOKEN HF_API_KEY : option str)
    (ffmpeg_version : Cli.probe) (w : Kokoro.world) (no_concatenate : bool)
    (m : Podcast.manifest) (evs : list Podcast.event)
    (Hrun : Cli.kokoro_script HF_TOKEN HF_API_KEY ffmpeg_version w
              no_concatenate = Done (m, evs)) :
  (Cli.unset HF_TOKEN = false \/ Cli.unset HF_API_KEY = false)
  /\ (no_concatenate = true \/ ffmpeg_version <> Cli.ProbeExited 0 ->
      Podcast.full m = None /\ filter is_ffmpeg evs = []).
Proof.
  unfold Cli.kokoro_script in Hrun.
  destruct (Cli.unset (Cli.getenv_or HF_TOKEN HF_API_KEY)) eqn:Ek;
    [discriminate|].
  split.
  - unfold Cli.getenv_or in Ek. destruct HF_TOKEN as [[|c t]|];
      [now right | now left | now right].
  - intros Hoff.
    assert (Hfalse : Kokoro.process_ssml_directory w false = Done (m, evs)).
    { destruct no_concatenate; [exact Hrun|].
      destruct Hoff as [H|H]; [discriminate H|].
      destruct ffmpeg_version as [[|n]| |]; try discriminate;
        [now elim H | exact Hrun | exact Hrun]. }
    destruct (kokoro_stage_result _ _ Hfalse) as (_ & _ & He & Hfull).
    cbv zeta in He, Hfull. cbn [andb] in He, Hfull.
    split; [exact Hfull|].
    now rewrite He, app_nil_r, kokoro_events_no_ffmpeg.
Qed.

Lemma kokoro_script_returns_witness :
  exists m evs,
    Cli.kokoro_script (Some []) (Some (lit "hf_abc")) Cli.ProbeNotFound
      Runs.kokoro_after_seven false = Done (m, evs)
    /\ Podcast.full m = None /\ filter is_ffmpeg evs = [].
Proof.
  do 2 eexists. split; [reflexivity|].
  apply (@kokoro_script_returns (Some []) (Some (lit "hf_abc"))
           Cli.ProbeNotFound Runs.kokoro_after_seven false _ _ eq_refl).
  right. discriminate.
Defined.

Lemma edge_engine (w : EdgeTts.world) (voice : str) (concatenate : bool)
    (m : Podcast.manifest) (evs : list Podcast.event) :
  EdgeTts.process_ssml_directory w voice concatenate = Done (m, evs) ->
  Podcast.engine m = voice.
Proof.
  unfold EdgeTts.process_ssml_directory.
  destruct (EdgeTts.manifest_json w); try discriminate.
  destruct (sorted path_leb _); [discriminate|].
  destruct concatenate;
    [destruct (Podcast.audio_files _);
     [|destruct (Podcast.concatenate_audio_files _ _ _ _) as [[|] ?]]|];
    now intros [= <- _].
Qed.

(** A run of [main] of the edge-tts script that returns either only listed
    the voices, or processed the SSML directory: then --list-voices was not
    given, edge-tts was there or pip installed it, the manifest records the
    voice asked for, and, when --no-concatenate is given or
    [ffmpeg -version] does not exit with 0, ffmpeg is never run and no
    "full_podcast" is recorded. *)
Theorem edge_main_returns (h : Cli.host) (w : EdgeTts.world)
    (args : Cli.edge_args)
    (r : option (Podcast.manifest * list Podcast.event))
    (Hrun : Cli.edge_main h w args = Done r) :
  match r with
  | None => Cli.list_voices args = true
  | Some (m, evs) =>
      Cli.list_voices args = false
      /\ (Cli.edge_tts_version h = Cli.ProbeExited 0
          \/ Cli.pip_install h = Cli.ProbeExited 0)
      /\ Podcast.engine m = Cli.voice args
      /\ (Cli.no_concatenate args = true
          \/ Cli.ffmpeg_version h <> Cli.ProbeExited 0 ->
          Podcast.full m = None /\ filter is_ffmpeg evs = [])
  end.
Proof.
  unfold Cli.edge_main in Hrun.
  destruct (Cli.list_voices args).
  { destruct (Cli.list_available_voices _); try discriminate.
    now injection Hrun as <-. }
  assert (Hcont :
    match Cli.ffmpeg_missing (Cli.ffmpeg_version h) with
    | Done missing =>
        match EdgeTts.process_ssml_directory w (Cli.voice args)
                (negb (if missing then true else Cli.no_concatenate args))
        with
        | Done r => Done (Some r)
        | SysExit code => SysExit code
        | Uncaught => Uncaught
        end
    | SysExit code => SysExit code
    | Uncaught => Uncaught
    end = Done r ->
    match r with
    | None => false = true
    | Some (m, evs) =>
        Podcast.engine m = Cli.voice args
        /\ (Cli.no_concatenate args = true
            \/ Cli.ffmpeg_version h <> Cli.ProbeExited 0 ->
            Podcast.full m = None /\ filter is_ffmpeg evs = [])
    end).
  { clear Hrun. intros H.
    destruct (Cli.ffmpeg_missing (Cli.ffmpeg_version h)) as [missing| |] eqn:Em;
      try discriminate.
    destruct (EdgeTts.process_ssml_directory w _ _) as [[m evs]| |] eqn:Ep;
      try discriminate.
    injection H as <-. split; [exact (edge_engine _ _ _ Ep)|].
    intros Hoff.
    assert (Hc : negb (if missing then true else Cli.no_concatenate args)
                 = false).
    { destruct missing; [reflexivity|].
      destruct Hoff as [->|Hf]; [reflexivity|].
      destruct (Cli.ffmpeg_version h) as [[|n]| |]; try discriminate;
        now elim Hf. }
    rewrite Hc in Ep.
    destruct (edge_stage_result _ _ _ Ep) as (_ & _ & He & Hfull).
    cbv zeta in He, Hfull. cbn [andb] in He, Hfull.
    split; [exact Hfull|].
    now rewrite He, app_nil_r, edge_events_no_ffmpeg. }
  destruct (Cli.edge_tts_version h) as [[|n]| |] eqn:Ev;
    cbn [Cli.check_edge_tts] in Hrun; try discriminate.
  - specialize (Hcont Hrun). destruct r as [[m evs]|]; [|discriminate].
    split; [reflexivity|]. split; [now left | exact Hcont].
  - destruct (Cli.pip_install h) as [[|k]| |] eqn:Epip;
      cbn [Cli.install_edge_tts] in Hrun; try discriminate.
    specialize (Hcont Hrun). destruct r as [[m evs]|]; [|discriminate].
    split; [reflexivity|]. split; [now right | exact Hcont].
  - destruct (Cli.pip_install h) as [[|k]| |] eqn:Epip;
      cbn [Cli.install_edge_tts] in Hrun; try discriminate.
    specialize (Hcont Hrun). destruct r as [[m evs]|]; [|discriminate].
    split; [reflexivity|]. split; [now right | exact Hcont].
Qed.

Lemma edge_main_returns_witness :
  exists m evs,
    Cli.edge_main bare_host Runs.edge_after_seven default_args
    = Done (Some (m, evs))
    /\ Podcast.engine m = lit "en-US-AriaNeural"
    /\ Podcast.full m = None.
Proof.
  do 2 eexists. split; [reflexivity|].
  destruct (@edge_main_returns bare_host Runs.edge_after_seven default_args
              _ eq_refl) as (_ & _ & He & Hoff).
  split; [exact He|]. apply Hoff. right. discriminate.
Defined.

(** ** Top-level headings, line by line *)

Lemma prev_after_cons (prev : option ascii) (x : ascii) (xs : str) :
  prev_after prev (x :: xs) = prev_after (Some x) xs.
Proof.
  unfold prev_after. cbn [rev].
  destruct (rev xs) as [|y ys] eqn:E; reflexivity.
Qed.

(** Passing over the characters of a match. *)
Lemma sub_from_skips (pat : Re.pattern) (repl : str) (xs : str) :
  forall prev y,
    Re.sub_from pat repl (List.length xs) prev (xs ++ y)
    = Re.sub_from pat repl 0 (prev_after prev xs) y.
Proof.
  induction xs as [|x xs IH]; intros prev y; [reflexivity|].
  cbn [List.length app]. rewrite sub_from_skip, IH.
  now rewrite prev_after_cons.
Qed.

(** A greedy class takes a run of its characters when what follows the run
    matches. *)
Lemma greedy_takes_run (t : ascii -> bool)
    (k : option ascii -> str -> option nat) (xs : str) :
  forallb t xs = true ->
  forall prev y n,
    Re.greedy t k (prev_after prev xs) y = Some n ->
    Re.greedy t k prev (xs ++ y) = Some (List.length xs + n).
Proof.
  induction xs as [|x xs IH]; intros Hall prev y n H; [exact H|].
  cbn [forallb] in Hall. apply andb_true_iff in Hall.
  destruct Hall as [Hx Hall].
  cbn [app Re.greedy List.length]. rewrite Hx.
  rewrite prev_after_cons in H. now rewrite (IH Hall _ _ _ H).
Qed.

Lemma greedy_stops (t : ascii -> bool)
    (k : option ascii -> str -> option nat) (prev : option ascii)
    (c : ascii) (s : str) :
  t c = false -> Re.greedy t k prev (c :: s) = k prev (c :: s).
Proof. intros H. cbn [Re.greedy]. now rewrite H. Qed.

Lemma no_newline_forallb (s : str) :
  has_char nl s = false -> forallb (Re.test Re.AnyButNl) s = true.
Proof.
  induction s as [|c s IH]; [reflexivity|]. cbn [has_char existsb forallb].
  intros H. apply orb_false_iff in H. destruct H as [Hc Hs].
  cbn [Re.test]. rewrite Hc. now apply IH.
Qed.

Lemma rest_of_line_matches (prev : option ascii) (xs tail : str) :
  has_char nl xs = false -> Re.at_eol tail = true ->
  Re.match_here [Re.Atom Re.AnyButNl Re.Star; Re.Eol] prev (xs ++ tail)
  = Some (List.length xs).
Proof.
  intros Hxs Htail. cbn [Re.match_here].
  rewrite (@greedy_takes_run _ _ xs (no_newline_forallb _ Hxs) prev tail 0).
  - f_equal. lia.
  - destruct tail as [|x tail]; [reflexivity|].
    cbn [Re.at_eol] in Htail. cbn [Re.greedy Re.test]. rewrite Htail.
    cbn [negb Re.match_here Re.at_eol]. now rewrite Htail.
Qed.

(** The whole heading line is the match, when text follows the blanks. *)
Lemma heading_line_matches (prev : option ascii) (w0 c : ascii)
    (ws body tail : str) :
  Re.at_bol prev = true ->
  forallb is_space (w0 :: ws) = true ->
  is_space c = false -> has_char nl (c :: body) = false ->
  Re.at_eol tail = true ->
  Re.match_here BuildBook.top_header prev
    ("#"%char :: (w0 :: ws) ++ (c :: body) ++ tail)
  = Some (S (List.length ((w0 :: ws) ++ c :: body))).
Proof.
  intros Hbol Hws Hc Hbody Htail.
  cbn [forallb] in Hws. apply andb_true_iff in Hws.
  destruct Hws as [Hw0 Hws].
  unfold BuildBook.top_header. rewrite match_here_bol, Hbol.
  cbn [Re.match_here Re.test app]. rewrite eqc_refl, Hw0.
  change (fun c0 : ascii => is_space c0) with is_space.
  rewrite (@greedy_takes_run is_space _ ws Hws (Some w0)
             ((c :: body) ++ tail) (List.length (c :: body))).
  - cbn [option_map List.length]. rewrite length_app. reflexivity.
  - cbn [app]. rewrite greedy_stops by exact Hc.
    exact (@rest_of_line_matches _ (c :: body) tail Hbody Htail).
Qed.

Lemma sub_from_after_newline (repl s : str) :
  Re.sub_from BuildBook.top_header repl 0 (Some nl) s
  = Re.sub BuildBook.top_header repl s.
Proof.
  unfold Re.sub. destruct s as [|c s]; [reflexivity|].
  rewrite !sub_from_cons. unfold BuildBook.top_header at 1 3.
  rewrite !match_here_bol. cbn [Re.at_bol]. rewrite eqc_refl.
  reflexivity.
Qed.

(** Inside a line, after its first character, nothing matches. *)
Lemma sub_top_header_rest_of_line (xs : str) :
  forall c tail,
    eqc nl c = false -> has_char nl xs = false ->
    Re.sub_from BuildBook.top_header [] 0 (Some c) (xs ++ nl :: tail)
    = xs ++ nl :: Re.sub BuildBook.top_header [] tail.
Proof.
  induction xs as [|x xs IH]; intros c tail Hc Hxs.
  - cbn [app]. rewrite sub_from_cons. unfold BuildBook.top_header at 1.
    rewrite match_here_bol. cbn [Re.at_bol]. rewrite Hc.
    f_equal. apply sub_from_after_newline.
  - cbn [has_char existsb] in Hxs. apply orb_false_iff in Hxs.
    destruct Hxs as [Hx Hxs].
    cbn [app]. rewrite sub_from_cons. unfold BuildBook.top_header at 1.
    rewrite match_here_bol. cbn [Re.at_bol]. rewrite Hc.
    f_equal. now apply IH.
Qed.

Lemma sub_top_header_heading_line (w0 c : ascii) (ws body rest : str) :
  forallb is_space (w0 :: ws) = true ->
  is_space c = false ->
  has_char nl (c :: body) = false ->
  let heading := "#"%char :: (w0 :: ws) ++ c :: body in
  Re.sub BuildBook.top_header [] heading = []
  /\ Re.sub BuildBook.top_header [] (heading ++ nl :: rest)
     = nl :: Re.sub BuildBook.top_header [] rest.
Proof.
  intros Hws Hc Hbody. cbv zeta. unfold Re.sub. split.
  - rewrite sub_from_cons.
    replace ((w0 :: ws) ++ c :: body)
      with ((w0 :: ws) ++ (c :: body) ++ []) by now rewrite app_nil_r.
    rewrite (@heading_line_matches None w0 c ws body [] eq_refl Hws Hc Hbody
               eq_refl).
    cbn [app]. rewrite app_nil_r.
    rewrite <- (app_nil_r (w0 :: ws ++ c :: body)) at 2.
    now rewrite sub_from_skips.
  - cbn [app]. rewrite sub_from_cons.
    replace (w0 :: (ws ++ c :: body) ++ nl :: rest)
      with ((w0 :: ws) ++ (c :: body) ++ nl :: rest)
      by (cbn [app]; now rewrite <- app_assoc).
    rewrite (@heading_line_matches None w0 c ws body (nl :: rest) eq_refl
               Hws Hc Hbody eq_refl).
    cbn [app].
    replace (w0 :: ws ++ c :: body ++ nl :: rest)
      with ((w0 :: ws ++ c :: body) ++ nl :: rest)
      by (cbn [app]; now rewrite <- app_assoc).
    rewrite sub_from_skips.
    assert (Hprev : exists x, prev_after (Some "#"%char)
                                (w0 :: ws ++ c :: body) = Some x
                              /\ eqc nl x = false).
    { unfold prev_after.
      change (w0 :: ws ++ c :: body) with ((w0 :: ws) ++ c :: body).
      rewrite rev_app_distr. cbn [rev].
      cbn [has_char existsb] in Hbody. apply orb_false_iff in Hbody.
      destruct Hbody as [Hcn Hb].
      destruct (rev body) as [|y ys] eqn:E.
      - cbn [app]. exists c. now split.
      - cbn [app]. exists y. split; [reflexivity|].
        assert (Hy : In y body)
          by (apply in_rev; rewrite E; now left).
        destruct (eqc nl y) eqn:Ey; [|reflexivity].
        unfold has_char in Hb.
        assert (existsb (eqc nl) body = true)
          by (apply existsb_exists; now exists y).
        congruence. }
    destruct Hprev as (x & -> & Hx).
    exact (@sub_top_header_rest_of_line [] x rest Hx eq_refl).
Qed.

(** A top-level heading with text, on the first line or after a line
    break, is replaced by an empty line; what follows it is treated as a
    text of its own. *)
Theorem heading_with_text_is_blanked (w0 c : ascii) (ws body rest : str)
    (Hws : forallb is_space (w0 :: ws) = true)
    (Hc : is_space c = false)
    (Hbody : has_char nl (c :: body) = false) :
  let heading := "#"%char :: (w0 :: ws) ++ c :: body in
  Re.sub BuildBook.top_header [] heading = []
  /\ Re.sub BuildBook.top_header [] (heading ++ nl :: rest)
     = nl :: Re.sub BuildBook.top_header [] rest.
Proof. exact (@sub_top_header_heading_line w0 c ws body rest Hws Hc Hbody). Qed.

Lemma heading_with_text_is_blanked_witness :
  Re.sub BuildBook.top_header []
    (lit "# Title" ++ nl :: lit "## Details")
  = nl :: lit "## Details".
Proof.
  exact (proj2 (@heading_with_text_is_blanked " " "T" [] (lit "itle")
                  (lit "## Details") eq_refl eq_refl eq_refl)).
Defined.

Lemma no_heading_no_match (prev : option ascii) (c : ascii) (l tail : str) :
  no_heading (c :: l) = true ->
  Re.match_here BuildBook.top_header prev ((c :: l) ++ tail) = None.
Proof.
  intros H. unfold BuildBook.top_header. rewrite match_here_bol.
  destruct (Re.at_bol prev); [|reflexivity].
  cbn [no_heading] in H. cbn [app Re.match_here Re.test].
  destruct (eqc "#" c); [|reflexivity].
  destruct l as [|b l]; [discriminate H|].
  cbn [app]. destruct (is_space b); [discriminate H | reflexivity].
Qed.

(** A line that does not open with "#" and a blank, and is not "#" alone,
    is kept as it is when the scan reaches its start. *)
Lemma sub_top_header_kept_line (line rest : str) :
  has_char nl line = false ->
  no_heading line = true ->
  Re.sub BuildBook.top_header [] line = line
  /\ Re.sub BuildBook.top_header [] (line ++ nl :: rest)
     = line ++ nl :: Re.sub BuildBook.top_header [] rest.
Proof.
  intros Hline Hno. destruct line as [|c l].
  - split; [reflexivity|]. cbn [app].
    change (Re.sub BuildBook.top_header [] (nl :: rest))
      with (Re.sub_from BuildBook.top_header [] 0 None (nl :: rest)).
    rewrite sub_from_cons.
    change (Re.match_here BuildBook.top_header None (nl :: rest))
      with (@None nat).
    cbv iota. f_equal. apply sub_from_after_newline.
  - cbn [has_char existsb] in Hline. apply orb_false_iff in Hline.
    destruct Hline as [Hc Hl]. split.
    + unfold Re.sub. rewrite sub_from_cons.
      rewrite <- (app_nil_r (c :: l)) at 1.
      rewrite (no_heading_no_match None c l [] Hno). f_equal.
      now apply sub_top_header_inside_line.
    + cbn [app].
      change (Re.sub BuildBook.top_header [] (c :: l ++ nl :: rest))
        with (Re.sub_from BuildBook.top_header [] 0 None
                (c :: l ++ nl :: rest)).
      rewrite sub_from_cons.
      change (c :: l ++ nl :: rest) with ((c :: l) ++ nl :: rest).
      rewrite (no_heading_no_match None c l (nl :: rest) Hno). f_equal.
      now apply sub_top_header_rest_of_line.
Qed.

(** ** What [collect_files] collects *)

Lemma dict_set_keys (d : BuildBook.dict) (k : str) (v : list path) :
  existsb (fun k' => str_eqb k' k) (map fst d) = true ->
  map fst (BuildBook.dict_set d k v) = map fst d.
Proof.
  induction d as [|[k0 v0] d IH]; cbn [map fst existsb BuildBook.dict_set];
    [discriminate|].
  destruct (str_eqb k0 k); cbn [orb map fst]; [reflexivity|].
  intros H. now rewrite (IH H).
Qed.

Lemma dict_set_in (d : BuildBook.dict) (k k' : str) (v v' : list path) :
  In (k', v') (BuildBook.dict_set d k v) ->
  In (k', v') d \/ (k' = k /\ v' = v).
Proof.
  induction d as [|[k0 v0] d IH]; cbn [BuildBook.dict_set].
  - intros [[= <- <-]|[]]. now right.
  - destruct (str_eqb k0 k) eqn:E.
    + intros [[= <- <-]|H]; [|left; now right].
      apply str_eqb_eq in E. now right.
    + intros [H|H]; [left; now left|].
      destruct (IH H) as [H'|H']; [left; now right | now right].
Qed.

Lemma is_topic_keys (k : str) :
  BuildBook.is_topic k
  = existsb (fun k' => str_eqb k' k)
      (map fst (map (fun t => (BuildBook.key t, @nil path))
                  BuildBook.TOPIC_ORDER)).
Proof.
  unfold BuildBook.is_topic. rewrite map_map. cbn [fst].
  induction BuildBook.TOPIC_ORDER as [|t ts IH]; [reflexivity|].
  cbn [existsb map]. now rewrite IH.
Qed.

Lemma collect_files_keys_and_origin (w : BuildBook.world) :
  map fst (BuildBook.collect_files w)
  = map BuildBook.key BuildBook.TOPIC_ORDER
  /\ forall k v f,
       In (k, v) (BuildBook.collect_files w) -> In f v ->
       collected_from w k f.
Proof.
  unfold BuildBook.collect_files.
  set (init := map (fun t => (BuildBook.key t, @nil path))
                 BuildBook.TOPIC_ORDER).
  assert (Hinv : forall ds organized,
    (forall d, In d ds -> In d (BuildBook.notebook w)) ->
    map fst organized = map fst init ->
    (forall k v f, In (k, v) organized -> In f v -> collected_from w k f) ->
    let r :=
      fold_left
        (fun organized topic_dir =>
           if BuildBook.is_dir topic_dir
              && BuildBook.is_topic (BuildBook.entry_name topic_dir)
           then BuildBook.dict_set organized
                  (BuildBook.entry_name topic_dir)
                  (sorted path_leb (BuildBook.glob_md topic_dir))
           else organized)
        ds organized in
    map fst r = map fst init
    /\ forall k v f, In (k, v) r -> In f v -> collected_from w k f).
  { induction ds as [|d ds IH]; intros organized Hsub Hk Hall;
      cbn [fold_left]; [now split|].
    apply IH.
    - intros x Hx. apply Hsub. now right.
    - destruct (BuildBook.is_dir d && BuildBook.is_topic _) eqn:E;
        [|exact Hk].
      apply andb_true_iff in E. destruct E as [_ E].
      rewrite dict_set_keys; [exact Hk|].
      rewrite Hk. now rewrite <- is_topic_keys.
    - destruct (BuildBook.is_dir d && BuildBook.is_topic _) eqn:E;
        [|exact Hall].
      apply andb_true_iff in E. destruct E as [Edir _].
      intros k v f Hin Hf.
      destruct (dict_set_in _ _ _ _ _ Hin) as [Hold|[-> ->]];
        [exact (Hall _ _ _ Hold Hf)|].
      apply sorted_in in Hf. unfold BuildBook.glob_md in Hf.
      apply in_map_iff in Hf. destruct Hf as (n & <- & Hn).
      apply filter_In in Hn. destruct Hn as [Hn Hmd].
      exists d, n. repeat split; try assumption.
      apply Hsub. now left. }
  destruct (Hinv (BuildBook.notebook w) init) as [Hk Hall].
  - auto.
  - reflexivity.
  - intros k v f Hin Hf. unfold init in Hin. apply in_map_iff in Hin.
    destruct Hin as (t & [= <- <-] & _). elim Hf.
  - split; [|exact Hall]. rewrite Hk. unfold init. now rewrite map_map.
Qed.

(** The dict that [collect_files] returns has the keys of TOPIC_ORDER, all
    of them and in that order, whatever the notebook directory holds; every
    file listed under a topic is a name ending in ".md" found directly in a
    directory that has the name of the topic. *)
Theorem collect_files_only_topics (w : BuildBook.world) :
  map fst (BuildBook.collect_files w)
  = map BuildBook.key BuildBook.TOPIC_ORDER
  /\ forall k v f,
       In (k, v) (BuildBook.collect_files w) -> In f v ->
       collected_from w k f.
Proof. exact (collect_files_keys_and_origin w). Qed.

(** ** The size of the book *)



Lemma section_length (w : BuildBook.world)
    (organized_files : BuildBook.dict) (t : BuildBook.topic) :
  List.length (BookSpec.section w organized_files t)
  = 7 + 5 * List.length
              (BuildBook.files_of organized_files (BuildBook.key t)).
Proof.
  unfold BookSpec.section. rewrite length_app. cbn [BookSpec.topic_header
    List.length]. f_equal.
  induction (BuildBook.files_of organized_files (BuildBook.key t))
    as [|f fs IH]; [reflexivity|].
  cbn [flat_map]. rewrite length_app, IH.
  cbn [BookSpec.chapter BookSpec.chapter_block List.length]. lia.
Qed.

Lemma sections_length (w : BuildBook.world)
    (organized_files : BuildBook.dict) (ts : list BuildBook.topic) :
  List.length (flat_map (BookSpec.section w organized_files) ts)
  = 7 * List.length ts
    + 5 * List.length
            (flat_map (fun t => BuildBook.files_of organized_files
                                  (BuildBook.key t)) ts).
Proof.
  induction ts as [|t ts IH]; [reflexivity|].
  cbn [flat_map]. rewrite !length_app, section_length, IH.
  cbn [List.length]. lia.
Qed.

(** The book has one part for the table of contents, seven for each topic
    shown and five for each file of a topic shown: every such file gets
    exactly one chapter. *)
Theorem book_has_one_chapter_per_file (w : BuildBook.world)
    (organized_files : BuildBook.dict) :
  List.length (BuildBook.master_parts w organized_files)
  = 1 + 7 * List.length (BookSpec.shown organized_files)
    + 5 * List.length (chapters organized_files).
Proof.
  rewrite master_parts_sections. unfold chapters.
  cbn [List.length]. rewrite sections_length. lia.
Qed.

Lemma fold_total (d : BuildBook.dict) (n : nat) :
  fold_left (fun n kv => n + List.length (snd kv)) d n
  = n + List.length (flat_map snd d).
Proof.
  revert n. induction d as [|kv d IH]; intros n; cbn [fold_left flat_map].
  - cbn. lia.
  - rewrite IH, length_app. lia.
Qed.

Lemma topic_keys_distinct : NoDup (map BuildBook.key BuildBook.TOPIC_ORDER).
Proof.
  cbn [map BuildBook.TOPIC_ORDER BuildBook.key].
  repeat (apply NoDup_cons;
          [intros H; cbn [In] in H;
           repeat (destruct H as [H|H]; [discriminate H|]); exact H|]).
  apply NoDup_nil.
Qed.

Lemma values_by_key (d : BuildBook.dict) :
  forall ts : list BuildBook.topic,
    map fst d = map BuildBook.key ts ->
    NoDup (map BuildBook.key ts) ->
    map (fun t => BuildBook.files_of d (BuildBook.key t)) ts = map snd d.
Proof.
  induction d as [|[k v] d IH]; intros [|t ts]; cbn [map fst snd];
    try discriminate; [reflexivity|].
  intros [= -> Hk] Hnd. inversion Hnd as [|? ? Hnotin Hnd']; subst.
  f_equal.
  - unfold BuildBook.files_of. cbn [BuildBook.dict_get].
    now rewrite str_eqb_refl.
  - rewrite <- (IH ts Hk Hnd'). apply map_ext_in. intros t' Ht'.
    unfold BuildBook.files_of. cbn [BuildBook.dict_get].
    destruct (str_eqb (BuildBook.key t) (BuildBook.key t')) eqn:E;
      [|reflexivity].
    apply str_eqb_eq in E. exfalso. apply Hnotin. rewrite E.
    now apply in_map.
Qed.

Lemma flat_map_shown (d : BuildBook.dict) (ts : list BuildBook.topic) :
  flat_map (fun t => BuildBook.files_of d (BuildBook.key t))
    (filter (fun t => BuildBook.truthy d (BuildBook.key t)) ts)
  = flat_map (fun t => BuildBook.files_of d (BuildBook.key t)) ts.
Proof.
  induction ts as [|t ts IH]; [reflexivity|]. cbn [filter flat_map].
  destruct (BuildBook.truthy d (BuildBook.key t)) eqn:E;
    cbn [flat_map]; rewrite IH; [reflexivity|].
  unfold BuildBook.truthy in E. unfold BuildBook.files_of.
  destruct (BuildBook.dict_get d (BuildBook.key t)) as [[|]|];
    try discriminate; reflexivity.
Qed.

(** The number of files that [main] reports as found is the number of
    chapters of the book it writes: the files collected are those of the
    topics shown, each once. *)
Theorem reported_total_is_number_of_chapters (w : BuildBook.world) :
  fst (book_main w)
  = List.length (chapters (BuildBook.collect_files w))
  /\ flat_map snd (BuildBook.collect_files w)
     = chapters (BuildBook.collect_files w).
Proof.
  assert (E : flat_map snd (BuildBook.collect_files w)
              = chapters (BuildBook.collect_files w)).
  { unfold chapters, BookSpec.shown. rewrite flat_map_shown.
    rewrite !flat_map_concat_map. f_equal. symmetry.
    apply values_by_key; [|exact topic_keys_distinct].
    exact (proj1 (collect_files_keys_and_origin w)). }
  split; [|exact E].
  unfold book_main. cbn [fst]. now rewrite fold_total, E.
Qed.

(** ** The headings of a whole chapter *)

Lemma first_non_blank (s : str) :
  forallb is_space s = false ->
  exists ws c body,
    s = ws ++ c :: body
    /\ forallb is_space ws = true /\ is_space c = false.
Proof.
  induction s as [|a s IH]; [discriminate|]. cbn [forallb].
  destruct (is_space a) eqn:Ea; cbn [andb].
  - intros H. destruct (IH H) as (ws & c & body & -> & Hws & Hc).
    exists (a :: ws), c, body. cbn [forallb app]. rewrite Ea.
    now repeat split.
  - intros _. exists [], a, s. now repeat split.
Qed.

Lemma heading_with_text_shape (line : str) :
  heading_with_text line = true ->
  exists w0 ws c body,
    line = "#"%char :: (w0 :: ws) ++ c :: body
    /\ forallb is_space (w0 :: ws) = true /\ is_space c = false.
Proof.
  destruct line as [|h [|b rest]]; try discriminate.
  cbn [heading_with_text]. intros H.
  apply andb_true_iff in H. destruct H as [H Hrest].
  apply andb_true_iff in H. destruct H as [Hh Hb].
  apply eqc_eq in Hh. subst h.
  apply negb_true_iff in Hrest.
  destruct (first_non_blank _ Hrest) as (ws & c & body & -> & Hws & Hc).
  exists b, ws, c, body. cbn [forallb]. rewrite Hb, Hws.
  now repeat split.
Qed.

Lemma no_heading_not_heading (line : str) :
  no_heading line = true -> heading_with_text line = false.
Proof.
  destruct line as [|h [|b rest]]; try reflexivity.
  cbn [no_heading heading_with_text].
  destruct (eqc "#" h); [|reflexivity].
  destruct (is_space b); [discriminate | reflexivity].
Qed.

Lemma sub_top_header_line (line rest : str) :
  plain_line line ->
  let kept := if heading_with_text line then [] else line in
  Re.sub BuildBook.top_header [] line = kept
  /\ Re.sub BuildBook.top_header [] (line ++ nl :: rest)
     = kept ++ nl :: Re.sub BuildBook.top_header [] rest.
Proof.
  intros [Hnl [Hno|Hh]]; cbv zeta.
  - rewrite (no_heading_not_heading _ Hno).
    exact (@sub_top_header_kept_line line rest Hnl Hno).
  - rewrite Hh.
    destruct (heading_with_text_shape _ Hh)
      as (w0 & ws & c & body & -> & Hws & Hc).
    apply sub_top_header_heading_line; [exact Hws | exact Hc |].
    change ("#"%char :: (w0 :: ws) ++ c :: body)
      with (("#"%char :: w0 :: ws) ++ c :: body) in Hnl.
    rewrite has_char_app in Hnl. now apply orb_false_iff in Hnl.
Qed.

(** In a chapter text without a bare heading line, the heading removal of
    [build_master_document] works line by line, wherever a line stands:
    every top-level heading with text becomes an empty line, and every
    other line, so every line that opens with "##", is kept as it is. *)
Theorem top_headings_removed_line_by_line (lines : list str)
    (Hlines : Forall plain_line lines) :
  Re.sub BuildBook.top_header [] (join [nl] lines)
  = join [nl] (without_top_headings lines).
Proof.
  induction Hlines as [|line rest Hline Hrest IH]; [reflexivity|].
  destruct rest as [|line' rest].
  - exact (proj1 (@sub_top_header_line line [] Hline)).
  - change (join [nl] (line :: line' :: rest))
      with (line ++ nl :: join [nl] (line' :: rest)).
    rewrite (proj2 (@sub_top_header_line line _ Hline)), IH.
    reflexivity.
Qed.

Lemma top_headings_removed_line_by_line_witness :
  Re.sub BuildBook.top_header []
    (join [nl] [lit "intro"; lit "# Title"; lit "## Details"; lit "#tag";
                []; lit "#  Second  "; lit "text"])
  = join [nl] [lit "intro"; []; lit "## Details"; lit "#tag"; []; [];
               lit "text"].
Proof.
  apply (@top_headings_removed_line_by_line
           [lit "intro"; lit "# Title"; lit "## Details"; lit "#tag";
            []; lit "#  Second  "; lit "text"]).
  repeat (constructor;
          [split; [reflexivity | first [now left | now right]]|]).
  constructor.
Defined.

(** ** Markers and idempotence *)


(** *** Patterns without anchors *)



(** *** The length of a match *)



(** *** What a substitution does to the length *)












(** *** Markers that are not nested *)


















(** *** The words of a text *)








(** The transform leaves alone a text that holds a "<" but no marker of
    the twelve patterns. *)
Lemma strip_ssml_tags_keeps_stray_opener :
  has_marker (lit "3 < 5 and a<b") = false
  /\ Kokoro.strip_ssml_tags (lit "3 < 5 and a<b") = lit "3 < 5 and a<b".
Proof. split; reflexivity. Qed.
